(** * IndicTransToolkit/example.py: sentence splitting and batched translation

    A shallow embedding of the translation driver of
    [IndicTransToolkit/example.py]:

    - [split_sentences]                  (lines 66-83)
    - [initialize_model_and_tokenizer]   (lines 86-125)
    - [batch_translate]                  (lines 128-166)
    - [translate_paragraph]              (lines 169-173)

    The script drives third-party libraries (NLTK, Moses, the Indic NLP
    library, transformers, torch, IndicProcessor).  None of them belongs to
    the repository, so each external call is a parameter of the development:
    a function on an abstract world that either returns a value or raises a
    Python exception.  The driver itself is written in a small
    state/error/trace monad; the trace records every external call together
    with the exception it raised, if any. *)

From Stdlib Require Import ZArith Lia.
From stdpp Require Import gmap strings list.

Local Open Scope Z_scope.

(** ** Python values *)

(** A Python [str] holding free text is a sequence of Unicode code points.
    Language tags and other identifiers are only ever compared and used as
    dictionary keys, so they are kept as [string] (their UTF-8 bytes). *)
Abbreviation text := (list N).

(** U+00AD, the soft hyphen: the literal ["\xad"] of line 77. *)
Definition SOFT_HYPHEN : N := 173%N.

(** A raised exception: its class name and its argument. *)
Record exn := Exn { exn_class : string; exn_arg : string }.

Definition KeyError (key : string) : exn := Exn "KeyError" key.
Definition ValueError (msg : string) : exn := Exn "ValueError" msg.

Inductive result (A : Type) : Type :=
| Ok (a : A)
| Err (e : exn).
Arguments Ok {A} a.
Arguments Err {A} e.

(** [len(l)] *)
Definition len {A} (l : list A) : Z := Z.of_nat (length l).

(** Number of elements of [range(start, stop, step)] for [step <> 0]. *)
Definition range_len (start stop step : Z) : Z :=
  if 0 <? step then
    (if start <? stop then (stop - start - 1) / step + 1 else 0)
  else
    (if stop <? start then (start - stop - 1) / (- step) + 1 else 0).

(** [range(start, stop, step)], which raises [ValueError] on a zero step. *)
Definition py_range (start stop step : Z) : result (list Z) :=
  if step =? 0 then Err (ValueError "range() arg 3 must not be zero")
  else Ok (map (fun k : nat => start + Z.of_nat k * step)
               (seq 0 (Z.to_nat (range_len start stop step)))).

(** A slice bound: negative bounds count from the end, and every bound is
    clipped to [0..n]. *)
Definition slice_bound (n i : Z) : Z :=
  if i <? 0 then Z.max 0 (i + n) else Z.min i n.

(** [l[i:j]] *)
Definition py_slice {A} (l : list A) (i j : Z) : list A :=
  let a := slice_bound (len l) i in
  let b := slice_bound (len l) j in
  take (Z.to_nat (b - a)) (drop (Z.to_nat a) l).

(** [s] starts with [p] *)
Fixpoint starts_with (p s : text) : bool :=
  match p, s with
  | [], _ => true
  | _ :: _, [] => false
  | a :: p', b :: s' => (a =? b)%N && starts_with p' s'
  end.

(** Left-to-right scan of [str.replace] for a non-empty [old]: [skip] counts
    the characters of a match that are still to be dropped. *)
Fixpoint replace_scan (old new : text) (skip : nat) (s : text) : text :=
  match s with
  | [] => []
  | c :: s' =>
      match skip with
      | S k => replace_scan old new k s'
      | O =>
          if starts_with old s
          then new ++ replace_scan old new (length old - 1) s'
          else c :: replace_scan old new O s'
      end
  end.

(** [s.replace(old, new)]; an empty [old] matches before every character
    and at the end. *)
Definition str_replace (s old new : text) : text :=
  match old with
  | [] => new ++ flat_map (fun c => c :: new) s
  | _ :: _ => replace_scan old new O s
  end.

(** [d[key]] *)
Definition getitem (d : gmap string string) (key : string) : result string :=
  match d !! key with
  | Some v => Ok v
  | None => Err (KeyError key)
  end.

(** ** Module constants (lines 12-63) *)

Definition en_indic_ckpt_dir : string := "ai4bharat/indictrans2-en-indic-dist-200M".
Definition indic_en_ckpt_dir : string := "ai4bharat/indictrans2-indic-en-dist-200M".
Definition indic_indic_ckpt_dir : string := "ai4bharat/indictrans2-indic-indic-dist-320M".
Definition BATCH_SIZE : Z := 4.

Definition flores_codes : gmap string string :=
  list_to_map
    [ ("asm_Beng", "as"); ("awa_Deva", "hi"); ("ben_Beng", "bn");
      ("bho_Deva", "hi"); ("brx_Deva", "hi"); ("doi_Deva", "hi");
      ("eng_Latn", "en"); ("gom_Deva", "kK"); ("guj_Gujr", "gu");
      ("hin_Deva", "hi"); ("hne_Deva", "hi"); ("kan_Knda", "kn");
      ("kas_Arab", "ur"); ("kas_Deva", "hi"); ("kha_Latn", "en");
      ("lus_Latn", "en"); ("mag_Deva", "hi"); ("mai_Deva", "hi");
      ("mal_Mlym", "ml"); ("mar_Deva", "mr"); ("mni_Beng", "bn");
      ("mni_Mtei", "hi"); ("npi_Deva", "ne"); ("ory_Orya", "or");
      ("pan_Guru", "pa"); ("san_Deva", "hi"); ("sat_Olck", "or");
      ("snd_Arab", "ur"); ("snd_Deva", "hi"); ("tam_Taml", "ta");
      ("tel_Telu", "te"); ("urd_Arab", "ur") ]%string.

(** ** External calls and their trace *)

(** Keyword arguments of [model.generate] (lines 146-153). *)
Record generate_kwargs := GenerateKwargs {
  use_cache : bool;
  min_length : Z;
  max_length : Z;
  num_beams : Z;
  num_return_sequences : Z
}.

(** The keyword arguments written out at the call on lines 146-153. *)
Definition GENERATE_KWARGS : generate_kwargs :=
  {| use_cache := false; min_length := 0; max_length := 256;
     num_beams := 5; num_return_sequences := 1 |}.

(** [BitsAndBytesConfig(...)] as built on lines 89-93 and 95-99; both set
    double quantisation and a bfloat16 compute type. *)
Inductive BitsAndBytesConfig := Load4bit | Load8bit.

(** Keyword arguments of [AutoModelForSeq2SeqLM.from_pretrained]
    (lines 112-118). *)
Record model_kwargs := ModelKwargs {
  trust_remote_code : bool;
  attn_implementation : string;
  low_cpu_mem_usage : bool;
  quantization_config : option BitsAndBytesConfig
}.

Inductive call :=
| CallSentTokenize (input_text : text)
| CallMoses (code : string) (lines : list text)
| CallSentenceSplit (input_text : text) (code : string)
| CallPreprocess (batch : list text) (src_lang tgt_lang : string)
| CallTokenizer (batch : list text)
| CallGenerate (kw : generate_kwargs)
| CallBatchDecode
| CallPostprocess (batch : list text) (lang : string)
| CallEmptyCache
| CallFlashAvailable
| CallFlashGe210
| CallTokenizerFromPretrained (ckpt_dir : string)
| CallModelFromPretrained (ckpt_dir : string) (kw : model_kwargs)
| CallModelTo (device : string)
| CallModelHalf
| CallModelEval.

(** One external call and the exception it raised, if it raised. *)
Record event := Event { ev_call : call; ev_raised : option exn }.

Definition is_generate (ev : event) : bool :=
  match ev_call ev with CallGenerate _ => true | _ => false end.

(** Number of [model.generate] invocations in a trace. *)
Definition generate_calls (evs : list event) : nat :=
  length (filter (fun ev => is_generate ev = true) evs).

(** The batches handed to [ip.preprocess_batch], in call order. *)
Definition preprocessed (evs : list event) : list (list text) :=
  omap (fun ev => match ev_call ev with
                  | CallPreprocess b _ _ => Some b
                  | _ => None
                  end) evs.

(** The Python name of the callee of a call. *)
Definition call_name (c : call) : string :=
  match c with
  | CallSentTokenize _ => "sent_tokenize"
  | CallMoses _ _ => "MosesSentenceSplitter"
  | CallSentenceSplit _ _ => "sentence_split"
  | CallPreprocess _ _ _ => "ip.preprocess_batch"
  | CallTokenizer _ => "tokenizer"
  | CallGenerate _ => "model.generate"
  | CallBatchDecode => "tokenizer.batch_decode"
  | CallPostprocess _ _ => "ip.postprocess_batch"
  | CallEmptyCache => "torch.cuda.empty_cache"
  | CallFlashAvailable => "is_flash_attn_2_available"
  | CallFlashGe210 => "is_flash_attn_greater_or_equal_2_10"
  | CallTokenizerFromPretrained _ => "AutoTokenizer.from_pretrained"
  | CallModelFromPretrained _ _ => "AutoModelForSeq2SeqLM.from_pretrained"
  | CallModelTo _ => "model.to"
  | CallModelHalf => "model.half"
  | CallModelEval => "model.eval"
  end.

(** The callees of a trace, in call order. *)
Definition callees (evs : list event) : list string :=
  map (fun ev => call_name (ev_call ev)) evs.

(** ** Batches and traces *)

(** The batches formed on lines 131-132, in loop order. *)
Definition batches (batch_size : Z) (input_sentences : list text)
  : list (list text) :=
  match py_range 0 (len input_sentences) batch_size with
  | Ok starts =>
      map (fun i => py_slice input_sentences i (i + batch_size)) starts
  | Err _ => []
  end.

(** No call of the trace raised. *)
Definition clean (evs : list event) : Prop :=
  Forall (fun ev => ev_raised ev = None) evs.

(** A run ends at the first call that raises, with the exception of that
    call; an exception of the script itself follows calls that all
    returned. *)
Definition faithful {A} (r : result A) (evs : list event) : Prop :=
  match r with
  | Ok _ => clean evs
  | Err e =>
      clean evs \/
      exists evs' c, evs = evs' ++ [Event c (Some e)] /\ clean evs'
  end.

(** ** The monad of the script *)

Section Script.

(** The state of everything outside the script (loaded models, device
    memory, library state), the encoded model inputs and the generated
    token ids. *)
Context {W Inputs Tokens : Type}.

(** An external call: a value or an exception, and the next world. *)
Definition ext (A : Type) : Type := W -> result A * W.

Definition M (A : Type) : Type := W -> result A * W * list event.

Definition ret {A} (a : A) : M A := fun w => (Ok a, w, []).

Definition raise {A} (e : exn) : M A := fun w => (Err e, w, []).

Definition bind {A B} (m : M A) (k : A -> M B) : M B :=
  fun w =>
    match m w with
    | (Ok a, w1, evs1) =>
        match k a w1 with
        | (r, w2, evs2) => (r, w2, evs1 ++ evs2)
        end
    | (Err e, w1, evs1) => (Err e, w1, evs1)
    end.

Definition lift {A} (r : result A) : M A :=
  match r with Ok a => ret a | Err e => raise e end.

(** Perform the external call [f], recorded as [c]. *)
Definition perform {A} (c : call) (f : ext A) : M A :=
  fun w =>
    match f w with
    | (Ok a, w1) => (Ok a, w1, [Event c None])
    | (Err e, w1) => (Err e, w1, [Event c (Some e)])
    end.

Notation "x <- c1 ;; c2" := (bind c1 (fun x => c2))
  (at level 100, c1 at next level, right associativity).

(** [for x in xs: acc = body(x, acc)] *)
Fixpoint for_each {I A} (xs : list I) (body : I -> A -> M A) (acc : A) : M A :=
  match xs with
  | [] => ret acc
  | x :: xs' => acc' <- body x acc ;; for_each xs' body acc'
  end.

(** ** Objects handed to the driver *)

(** [ip], an [IndicProcessor]. *)
Record IndicProcessor := {
  preprocess_batch : list text -> string -> string -> ext (list text);
  postprocess_batch : list text -> string -> ext (list text)
}.

(** [tokenizer]: calling it encodes a batch (with [truncation=True],
    [padding="longest"], [return_tensors="pt"],
    [return_attention_mask=True], followed by [.to(DEVICE)]);
    [batch_decode] is called with [skip_special_tokens=True] and
    [clean_up_tokenization_spaces=True]. *)
Record Tokenizer := {
  encode : list text -> ext Inputs;
  batch_decode : Tokens -> ext (list text)
}.

(** [model]; [generate] runs under [torch.no_grad()]. *)
Record Model := {
  generate : Inputs -> generate_kwargs -> ext Tokens
}.

(** ** Library functions the module imports *)

Class Externals := {
  (** [nltk.sent_tokenize(text)] *)
  sent_tokenize : text -> ext (list text);
  (** [with MosesSentenceSplitter(code) as splitter: splitter(lines)] *)
  MosesSentenceSplitter : string -> list text -> ext (list text);
  (** [sentence_split(text, lang=code, delim_pat=DELIM_PAT_NO_DANDA)] *)
  sentence_split : text -> string -> ext (list text);
  (** [torch.cuda.empty_cache()] *)
  cuda_empty_cache : ext unit;
  (** ["cuda" if torch.cuda.is_available() else "cpu"], fixed at import *)
  DEVICE : string;
  is_flash_attn_2_available : ext bool;
  is_flash_attn_greater_or_equal_2_10 : ext bool;
  (** [AutoTokenizer.from_pretrained(ckpt_dir, trust_remote_code=True)] *)
  tokenizer_from_pretrained : string -> ext Tokenizer;
  (** [AutoModelForSeq2SeqLM.from_pretrained(ckpt_dir, **kw)] *)
  model_from_pretrained : string -> model_kwargs -> ext Model;
  (** [model.to(device)], [model.half()], [model.eval()] *)
  model_to : Model -> string -> ext Model;
  model_half : Model -> ext unit;
  model_eval : Model -> ext unit
}.

Context {libs : Externals}.

(** ** [split_sentences] (lines 66-83) *)

Definition split_sentences (input_text : text) (lang : string) : M (list text) :=
  if decide (lang = "eng_Latn"%string) then
    _ <- perform (CallSentTokenize input_text) (sent_tokenize input_text) ;;
    code <- lift (getitem flores_codes lang) ;;
    sents_moses <- perform (CallMoses code [input_text])
                           (MosesSentenceSplitter code [input_text]) ;;
    sents_nltk <- perform (CallSentTokenize input_text)
                          (sent_tokenize input_text) ;;
    let input_sentences :=
      if len sents_nltk <? len sents_moses then sents_nltk else sents_moses in
    ret (map (fun sent => str_replace sent [SOFT_HYPHEN] []) input_sentences)
  else
    code <- lift (getitem flores_codes lang) ;;
    perform (CallSentenceSplit input_text code) (sentence_split input_text code).

(** ** [initialize_model_and_tokenizer] (lines 86-125) *)

Definition initialize_model_and_tokenizer
    (ckpt_dir quantization attn_implementation : string) : M (Tokenizer * Model) :=
  let qconfig :=
    if decide (quantization = "4-bit"%string) then Some Load4bit
    else if decide (quantization = "8-bit"%string) then Some Load8bit
    else None in
  attn_implementation <-
    (if decide (attn_implementation = "flash_attention_2"%string) then
       available <- perform CallFlashAvailable is_flash_attn_2_available ;;
       recent <- (if available : bool
                  then perform CallFlashGe210 is_flash_attn_greater_or_equal_2_10
                  else ret false) ;;
       ret (if recent : bool then "flash_attention_2"%string else "eager"%string)
     else ret attn_implementation) ;;
  tokenizer <- perform (CallTokenizerFromPretrained ckpt_dir)
                       (tokenizer_from_pretrained ckpt_dir) ;;
  let kw := {| trust_remote_code := true;
               attn_implementation := "eager";
               low_cpu_mem_usage := true;
               quantization_config := qconfig |} in
  model <- perform (CallModelFromPretrained ckpt_dir kw)
                   (model_from_pretrained ckpt_dir kw) ;;
  model <- (match qconfig with
            | None =>
                model <- perform (CallModelTo DEVICE) (model_to model DEVICE) ;;
                _ <- perform CallModelHalf (model_half model) ;;
                ret model
            | Some _ => ret model
            end) ;;
  _ <- perform CallModelEval (model_eval model) ;;
  ret (tokenizer, model).

(** ** [batch_translate] (lines 128-166) *)

(** One turn of the loop of line 131, for the batch starting at index [i]. *)
Definition translate_batch (batch_size : Z) (input_sentences : list text)
    (src_lang tgt_lang : string) (model : Model) (tokenizer : Tokenizer)
    (ip : IndicProcessor) (i : Z) (translations : list text) : M (list text) :=
  let batch := py_slice input_sentences i (i + batch_size) in
  batch <- perform (CallPreprocess batch src_lang tgt_lang)
                   (preprocess_batch ip batch src_lang tgt_lang) ;;
  inputs <- perform (CallTokenizer batch) (encode tokenizer batch) ;;
  generated_tokens <- perform (CallGenerate GENERATE_KWARGS)
                              (generate model inputs GENERATE_KWARGS) ;;
  generated_tokens <- perform CallBatchDecode
                              (batch_decode tokenizer generated_tokens) ;;
  outputs <- perform (CallPostprocess generated_tokens tgt_lang)
                     (postprocess_batch ip generated_tokens tgt_lang) ;;
  _ <- perform CallEmptyCache cuda_empty_cache ;;
  ret (translations ++ outputs).

(** [batch_size] is the value of the module global [BATCH_SIZE] at the time
    of the call. *)
Definition batch_translate (batch_size : Z) (input_sentences : list text)
    (src_lang tgt_lang : string) (model : Model) (tokenizer : Tokenizer)
    (ip : IndicProcessor) : M (list text) :=
  starts <- lift (py_range 0 (len input_sentences) batch_size) ;;
  for_each starts
    (translate_batch batch_size input_sentences src_lang tgt_lang
                     model tokenizer ip)
    [].

(** ** [translate_paragraph] (lines 169-173) *)

(** [" ".join(strs)] *)
Fixpoint join_space (strs : list text) : text :=
  match strs with
  | [] => []
  | [s] => s
  | s :: rest => s ++ 32%N :: join_space rest
  end.

Definition translate_paragraph (batch_size : Z) (input_text : text)
    (src_lang tgt_lang : string) (model : Model) (tokenizer : Tokenizer)
    (ip : IndicProcessor) : M text :=
  input_sentences <- split_sentences input_text src_lang ;;
  translated_text <- batch_translate batch_size input_sentences
                                     src_lang tgt_lang model tokenizer ip ;;
  ret (join_space translated_text).

(** ** Vocabulary of the statements *)

(** Every run of [m] has a faithful trace. *)
Definition traced {A} (m : M A) : Prop :=
  forall w, faithful (m w).1.1 (m w).2.

(** Every call made by [m] satisfies [P]. *)
Definition emits (P : call -> Prop) {A} (m : M A) : Prop :=
  forall w, Forall (fun ev => P (ev_call ev)) (m w).2.

(** [m], started in [w], returns [a] and leaves the world [w']. *)
Definition runs_to {A} (m : M A) (w : W) (a : A) (w' : W) : Prop :=
  exists evs, m w = (Ok a, w', evs).

(** The three stages of a turn map a batch sentence by sentence, in order
    and whatever the batch: preprocessing by [pre]; encoding, generation and
    decoding together by [gen]; postprocessing by [post].  Releasing the
    device cache does not raise. *)
Definition per_sentence (src_lang tgt_lang : string) (model : Model)
    (tokenizer : Tokenizer) (ip : IndicProcessor)
    (pre gen post : text -> text) : Prop :=
  (forall batch w, exists w',
      preprocess_batch ip batch src_lang tgt_lang w = (Ok (map pre batch), w')) /\
  (forall batch w, exists inputs w1 tokens w2 w3,
      encode tokenizer batch w = (Ok inputs, w1) /\
      generate model inputs GENERATE_KWARGS w1 = (Ok tokens, w2) /\
      batch_decode tokenizer tokens w2 = (Ok (map gen batch), w3)) /\
  (forall batch w, exists w',
      postprocess_batch ip batch tgt_lang w = (Ok (map post batch), w')) /\
  (forall w, exists w', cuda_empty_cache w = (Ok (), w')).

(** The translation of one sentence by such stages. *)
Definition translation (pre gen post : text -> text) (s : text) : text :=
  post (gen (pre s)).

End Script.

(** ** Test doubles *)

(** Stand-ins for the libraries, in the style of the mocks a test of the
    driver would use.  Their world is the number of [model.generate] calls
    made so far. *)
Module Stub.

(** An ASCII literal as text. *)
Definition str (s : string) : text :=
  map Ascii.N_of_ascii (String.list_ascii_of_string s).

(** [s.upper()] on ASCII letters. *)
Definition upper (s : text) : text :=
  map (fun c => if ((97 <=? c) && (c <=? 122))%N then (c - 32)%N else c) s.

(** A processor that maps [pre] and [post] over its batches. *)
Definition processor (pre post : text -> text) : IndicProcessor (W:=nat) :=
  {| preprocess_batch batch _ _ w := (Ok (map pre batch), w);
     postprocess_batch batch _ w := (Ok (map post batch), w) |}.

Definition tokenizer : Tokenizer (W:=nat) (Inputs:=list text) (Tokens:=list text) :=
  {| encode batch w := (Ok batch, w);
     batch_decode tokens w := (Ok tokens, w) |}.

(** A model that maps [f] over its batch. *)
Definition model (f : text -> text)
  : Model (W:=nat) (Inputs:=list text) (Tokens:=list text) :=
  {| generate inputs _ w := (Ok (map f inputs), S w) |}.

(** A model that echoes its batch, except that its call number [k]
    (counted from zero) raises. *)
Definition failing_model (k : nat)
  : Model (W:=nat) (Inputs:=list text) (Tokens:=list text) :=
  {| generate inputs _ w :=
       if decide (w = k)
       then (Err (Exn "RuntimeError" "CUDA out of memory"), S w)
       else (Ok inputs, S w) |}.

(** Libraries whose two English splitters return the fixed segmentations
    [nltk] and [moses], and on which both flash-attention checks answer
    [flash]. *)
Definition externals (nltk moses : list text) (flash : bool)
  : Externals (W:=nat) (Inputs:=list text) (Tokens:=list text) :=
  {| sent_tokenize _ w := (Ok nltk, w);
     MosesSentenceSplitter _ _ w := (Ok moses, w);
     sentence_split input_text _ w := (Ok [input_text], w);
     cuda_empty_cache w := (Ok (), w);
     DEVICE := "cpu";
     is_flash_attn_2_available w := (Ok flash, w);
     is_flash_attn_greater_or_equal_2_10 w := (Ok flash, w);
     tokenizer_from_pretrained _ w := (Ok tokenizer, w);
     model_from_pretrained _ _ w := (Ok (model id), w);
     model_to m _ w := (Ok m, w);
     model_half _ w := (Ok (), w);
     model_eval _ w := (Ok (), w) |}.

(** Five segments for the general tokenizer, three for the clause-aware
    splitter; the second of the three holds a soft hyphen. *)
Definition five : list text :=
  [str "One."; str "Two."; str "Three."; str "Four."; str "Five."].
Definition three : list text :=
  [str "One. Two."; str "Th" ++ SOFT_HYPHEN :: str "ree. Four."; str "Five."].
Definition paragraph : text :=
  str "One. Two. Th" ++ SOFT_HYPHEN :: str "ree. Four. Five.".

Definition plain : Externals := externals five three true.

Definition hello : list text := [str "Hello."; str "How are you?"].
Definition abc : list text := [str "a."; str "b."; str "c."].

(** Libraries like [externals], except that the Indic splitter raises. *)
Definition unsplittable
  : Externals (W:=nat) (Inputs:=list text) (Tokens:=list text) :=
  {| sent_tokenize _ w := (Ok five, w);
     MosesSentenceSplitter _ _ w := (Ok three, w);
     sentence_split _ _ w := (Err (Exn "TypeError" "expected string"), w);
     cuda_empty_cache w := (Ok (), w);
     DEVICE := "cpu";
     is_flash_attn_2_available w := (Ok false, w);
     is_flash_attn_greater_or_equal_2_10 w := (Ok false, w);
     tokenizer_from_pretrained _ w := (Ok tokenizer, w);
     model_from_pretrained _ _ w := (Ok (model id), w);
     model_to m _ w := (Ok m, w);
     model_half _ w := (Ok (), w);
     model_eval _ w := (Ok (), w) |}.

(** Libraries whose English splitters find no sentence. *)
Definition silent : Externals := externals [] [] false.

Definition hindi : text := str "Ek. Do.".

End Stub.

(** * transliteration/test.py: the transliteration endpoint

    [transliterate_text] (lines 30-67) of the FastAPI service.  The request
    has already been parsed into a [TransliterationRequest]; the engine of
    the ai4bharat library is a parameter, as the libraries of the
    translation script are.  The endpoint either returns its response list
    or raises an [HTTPException]. *)

Module Transliteration.

Definition SUPPORTED_LANGS : list string := ["ta"; "hi"; "te"]%string.

Record TransliterationRequest := {
  sentences : list text;
  lang : string;
  beam_width : Z
}.

Record TransliterationResponse := {
  original : text;
  transliterated : text
}.

(** The outcome of the endpoint. *)
Inductive response (A : Type) : Type :=
| Return (a : A)
| HTTPException (status_code : Z) (detail : string).
Arguments Return {A} a.
Arguments HTTPException {A} status_code detail.

Section Endpoint.

Context {W Engine : Type}.

(** The engine library; what it raises is an [Exception], which the
    endpoint catches. *)
Class XlitLibrary := {
  (** [XlitEngine(lang, beam_width=beam_width)], built under
      [safe_globals([argparse.Namespace])] *)
  XlitEngine : string -> Z -> ext (W:=W) Engine;
  (** [engine.translit_sentence(sentence)], a dictionary keyed by language *)
  translit_sentence : Engine -> text -> ext (W:=W) (gmap string text);
  (** [str(e)] *)
  exn_str : exn -> string
}.

Context {xlit : XlitLibrary}.

(** The loop of lines 56-64 over the sentences still to be done. *)
Fixpoint translit_loop (engine : Engine) (lang : string)
    (todo : list text) (result : list TransliterationResponse) (w : W)
  : response (list TransliterationResponse) * W :=
  match todo with
  | [] => (Return result, w)
  | sentence :: todo' =>
      match translit_sentence engine sentence w with
      | (Ok by_lang, w1) =>
          match by_lang !! lang with
          | Some translit =>
              translit_loop engine lang todo'
                (result ++ [{| original := sentence;
                               transliterated := translit |}]) w1
          | None =>
              (HTTPException 500
                 ("Transliteration failed: " +:+ exn_str (KeyError lang)), w1)
          end
      | (Err e, w1) =>
          (HTTPException 500 ("Transliteration failed: " +:+ exn_str e), w1)
      end
  end.

Definition transliterate_text (req : TransliterationRequest) (w : W)
  : response (list TransliterationResponse) * W :=
  if decide (sentences req = []) then
    (HTTPException 400 "No sentences provided", w)
  else if negb (bool_decide (lang req ∈ SUPPORTED_LANGS)) then
    (HTTPException 400 ("Unsupported language: " +:+ lang req), w)
  else if (beam_width req <? 1) || (20 <? beam_width req) then
    (HTTPException 400 "beam_width must be between 1 and 20", w)
  else
    match XlitEngine (lang req) (beam_width req) w with
    | (Ok engine, w1) => translit_loop engine (lang req) (sentences req) [] w1
    | (Err e, w1) =>
        (HTTPException 500
           ("Failed to initialize transliteration engine: " +:+ exn_str e), w1)
    end.

End Endpoint.

(** A test double: the engine is its language, counts its calls in the
    world and answers with the upper-cased sentence; ["te"] cannot be
    initialised. *)
Definition stub : XlitLibrary (W:=nat) (Engine:=string) :=
  {| XlitEngine l _ w :=
       if decide (l = "te"%string)
       then (Err (Exn "RuntimeError" "no model"), w)
       else (Ok l, S w);
     translit_sentence engine sentence w :=
       (Ok {[ engine := Stub.upper sentence ]}, S w);
     exn_str := exn_arg |}.

Definition request : TransliterationRequest :=
  {| sentences := Stub.hello; lang := "hi"; beam_width := 10 |}.

(** A request is well formed when it has a sentence, a supported language
    and a beam width from 1 to 20. *)
Definition well_formed (req : TransliterationRequest) : Prop :=
  sentences req <> [] /\ lang req ∈ SUPPORTED_LANGS /\
  1 <= beam_width req <= 20.

End Transliteration.

(** * Properties *)

(** ** Ranges and slices *)

Lemma range_len_step_pos (n B : Z) :
  0 < B -> 0 <= n -> range_len 0 n B = (n + B - 1) / B.
Proof.
  intros HB Hn. unfold range_len.
  destruct (Z.ltb_spec 0 B) as [_|]; [|lia].
  destruct (Z.ltb_spec 0 n) as [Hpos|Hzero].
  - replace (n + B - 1) with (n - 0 - 1 + 1 * B) by lia.
    rewrite Z.div_add by lia. lia.
  - assert (n = 0) as -> by lia.
    symmetry. apply Z.div_small. lia.
Qed.

Lemma range_len_step_neg (n B : Z) :
  B < 0 -> 0 <= n -> range_len 0 n B = 0.
Proof.
  intros HB Hn. unfold range_len.
  destruct (Z.ltb_spec 0 B); [lia|].
  destruct (Z.ltb_spec n 0); [lia|]. reflexivity.
Qed.

(** The start indices of the loop of line 131 for a positive batch size. *)
Lemma py_range_step_pos (n B : Z) :
  0 < B -> 0 <= n ->
  py_range 0 n B =
  Ok (map (fun k : nat => 0 + Z.of_nat k * B)
          (seq 0 (Z.to_nat ((n + B - 1) / B)))).
Proof.
  intros HB Hn. unfold py_range.
  destruct (Z.eqb_spec B 0); [lia|].
  by rewrite range_len_step_pos.
Qed.

Lemma py_range_step_neg (n B : Z) :
  B < 0 -> 0 <= n -> py_range 0 n B = Ok [].
Proof.
  intros HB Hn. unfold py_range.
  destruct (Z.eqb_spec B 0); [lia|].
  by rewrite range_len_step_neg.
Qed.

Lemma take_min_length {A} (l : list A) (n : nat) :
  take (n `min` length l) l = take n l.
Proof.
  destruct (Nat.le_gt_cases n (length l)).
  - by rewrite Nat.min_l.
  - rewrite Nat.min_r by lia. rewrite !take_ge; [done|lia|lia].
Qed.

(** [l[i:i+B]] for a non-negative start and width. *)
Lemma py_slice_window {A} (l : list A) (i B : Z) :
  0 <= i -> 0 <= B ->
  py_slice l i (i + B) = take (Z.to_nat B) (drop (Z.to_nat i) l).
Proof.
  intros Hi HB. unfold py_slice, slice_bound, len.
  destruct (Z.ltb_spec i 0); [lia|].
  destruct (Z.ltb_spec (i + B) 0); [lia|].
  destruct (Z.le_gt_cases i (Z.of_nat (length l))) as [Hin|Hout].
  - rewrite (Z.min_l i) by lia.
    rewrite <- (take_min_length (drop (Z.to_nat i) l) (Z.to_nat B)).
    rewrite length_drop. f_equal. lia.
  - rewrite !drop_ge by lia. by rewrite !take_nil.
Qed.

Lemma drop_window {A} (l : list A) (j b : nat) :
  drop (S j * b) l = drop b (drop (j * b) l).
Proof. rewrite drop_drop. f_equal. lia. Qed.

(** Consecutive windows of width [b] tile a prefix of the list. *)
Lemma concat_windows {A} (l : list A) (b m j : nat) :
  concat (map (fun k => take b (drop (k * b) l)) (seq j m)) =
  take (m * b) (drop (j * b) l).
Proof.
  revert j. induction m as [|m IH]; intros j; simpl.
  - by rewrite take_0.
  - rewrite IH, drop_window. apply take_take_drop.
Qed.

(** The number of turns of the loop covers the input and no turn starts
    beyond it. *)
Lemma loop_turns_bounds (n : nat) (B : Z) :
  1 <= B ->
  let m := Z.to_nat ((Z.of_nat n + B - 1) / B) in
  (n <= m * Z.to_nat B)%nat /\
  (forall k, (k < m)%nat -> (k * Z.to_nat B < n)%nat).
Proof.
  intros HB m.
  pose proof (Z.div_mod (Z.of_nat n + B - 1) B ltac:(lia)) as Hdm.
  pose proof (Z.mod_pos_bound (Z.of_nat n + B - 1) B ltac:(lia)) as Hmod.
  assert (0 <= (Z.of_nat n + B - 1) / B) as Hq
    by (apply Z.div_pos; lia).
  assert (Z.of_nat m = (Z.of_nat n + B - 1) / B) as Hm
    by (unfold m; lia).
  set (q := (Z.of_nat n + B - 1) / B) in *.
  split.
  - apply Nat2Z.inj_le. rewrite Nat2Z.inj_mul, Z2Nat.id, Hm by lia. nia.
  - intros k Hk. apply Nat2Z.inj_lt. rewrite Nat2Z.inj_mul, Z2Nat.id by lia.
    assert (Z.of_nat k <= q - 1) by lia. nia.
Qed.

Lemma start_index (k : nat) (B : Z) :
  0 <= B -> Z.to_nat (0 + Z.of_nat k * B) = (k * Z.to_nat B)%nat.
Proof. intros HB. rewrite Z.add_0_l, Z2Nat.inj_mul, Nat2Z.id by lia. done. Qed.

Lemma batches_windows (B : Z) (S0 : list text) :
  1 <= B ->
  batches B S0 =
  map (fun k => take (Z.to_nat B) (drop (k * Z.to_nat B) S0))
      (seq 0 (Z.to_nat ((len S0 + B - 1) / B))).
Proof.
  intros HB. unfold batches.
  rewrite py_range_step_pos by (unfold len; lia).
  rewrite map_map. apply map_ext. intros k.
  rewrite py_slice_window by lia.
  by rewrite start_index by lia.
Qed.

Lemma batches_concat (B : Z) (S0 : list text) :
  1 <= B -> concat (batches B S0) = S0.
Proof.
  intros HB. rewrite batches_windows by done.
  rewrite concat_windows. simpl. rewrite drop_0.
  apply take_ge. apply (loop_turns_bounds (length S0) B HB).
Qed.

Lemma batches_length (B : Z) (S0 : list text) :
  1 <= B -> len (batches B S0) = (len S0 + B - 1) / B.
Proof.
  intros HB. rewrite batches_windows by done. unfold len.
  rewrite length_map, length_seq. apply Z2Nat.id.
  apply Z.div_pos; lia.
Qed.

Lemma batches_lookup (B : Z) (S0 : list text) (k : nat) (b : list text) :
  1 <= B -> batches B S0 !! k = Some b ->
  b <> [] /\ len b <= B /\
  (S k < length (batches B S0) -> len b = B)%nat.
Proof.
  intros HB Hk.
  pose proof (loop_turns_bounds (length S0) B HB) as [_ Hlt].
  assert (length (batches B S0) = Z.to_nat ((len S0 + B - 1) / B)) as Hlen.
  { rewrite batches_windows by done. by rewrite length_map, length_seq. }
  rewrite Hlen. fold (len S0) in Hlt.
  rewrite batches_windows in Hk by done.
  rewrite list_lookup_fmap in Hk.
  destruct (seq _ _ !! k) as [k'|] eqn:Hseq; [|done].
  apply lookup_seq in Hseq as [-> Hkm]. simpl in Hk.
  injection Hk as <-.
  pose proof (Hlt k Hkm) as Hstart.
  assert (length (take (Z.to_nat B) (drop (k * Z.to_nat B) S0)) =
          Z.to_nat B `min` (length S0 - k * Z.to_nat B))%nat as Hb
    by (by rewrite length_take, length_drop).
  split; [|split].
  - intros Hnil. rewrite Hnil in Hb. simpl in Hb. lia.
  - unfold len. lia.
  - intros Hnext. specialize (Hlt (S k) Hnext). unfold len. nia.
Qed.

(** ** Traces *)

Lemma generate_calls_app (evs1 evs2 : list event) :
  generate_calls (evs1 ++ evs2) =
  (generate_calls evs1 + generate_calls evs2)%nat.
Proof. unfold generate_calls. by rewrite filter_app, length_app. Qed.

Lemma preprocessed_app (evs1 evs2 : list event) :
  preprocessed (evs1 ++ evs2) = preprocessed evs1 ++ preprocessed evs2.
Proof. apply omap_app. Qed.

Lemma clean_no_raise (evs : list event) (c : call) (e : exn) :
  clean evs -> Event c (Some e) ∈ evs -> False.
Proof.
  intros Hclean Hin. unfold clean in Hclean. rewrite Forall_forall in Hclean.
  by specialize (Hclean _ Hin).
Qed.

(** In a faithful run a raising call is the last call, and its exception is
    the outcome of the run. *)
Lemma faithful_raise {A} (r : result A) (evs : list event) (c : call) (e : exn) :
  faithful r evs -> Event c (Some e) ∈ evs ->
  r = Err e /\ last evs = Some (Event c (Some e)).
Proof.
  intros Hf Hin. destruct r as [a|e']; simpl in Hf.
  - destruct (clean_no_raise _ _ _ Hf Hin).
  - destruct Hf as [Hclean|(evs' & c' & -> & Hclean)].
    + destruct (clean_no_raise _ _ _ Hclean Hin).
    + apply elem_of_app in Hin as [Hin|Hin].
      * destruct (clean_no_raise _ _ _ Hclean Hin).
      * apply list_elem_of_singleton in Hin. injection Hin as -> ->.
        by rewrite last_snoc.
Qed.

Section Runs.

Context {W Inputs Tokens : Type} `{!Externals (W:=W) (Inputs:=Inputs) (Tokens:=Tokens)}.

Lemma traced_ret {A} (a : A) : traced (ret (W:=W) a).
Proof. intros w. simpl. constructor. Qed.

Lemma traced_raise {A} (e : exn) : traced (raise (W:=W) (A:=A) e).
Proof. intros w. simpl. left. constructor. Qed.

Lemma traced_lift {A} (r : result A) : traced (lift (W:=W) r).
Proof. destruct r; [apply traced_ret|apply traced_raise]. Qed.

Lemma traced_perform {A} (c : call) (f : ext (W:=W) A) : traced (perform c f).
Proof.
  intros w. unfold perform. destruct (f w) as [[a|e] w1]; simpl.
  - by repeat constructor.
  - right. exists [], c. split; [done|constructor].
Qed.

Lemma traced_bind {A B} (m : M (W:=W) A) (k : A -> M (W:=W) B) :
  traced m -> (forall a, traced (k a)) -> traced (bind m k).
Proof.
  intros Hm Hk w. unfold bind. specialize (Hm w).
  destruct (m w) as [[[a|e] w1] evs1]; simpl in *; [|done].
  specialize (Hk a w1). destruct (k a w1) as [[r w2] evs2]; simpl in *.
  destruct r as [b|e]; simpl in *.
  - by apply Forall_app.
  - destruct Hk as [Hclean|(evs' & c & -> & Hclean)].
    + left. by apply Forall_app.
    + right. exists (evs1 ++ evs'), c. split; [by rewrite app_assoc|].
      by apply Forall_app.
Qed.

Lemma traced_for_each {I A} (xs : list I) (body : I -> A -> M (W:=W) A) (acc : A) :
  (forall i a, traced (body i a)) -> traced (for_each xs body acc).
Proof.
  intros Hbody. revert acc. induction xs as [|x xs IH]; intros acc; simpl.
  - apply traced_ret.
  - apply traced_bind; [apply Hbody|apply IH].
Qed.

Create HintDb traced.

#[local] Hint Resolve traced_ret traced_raise traced_lift traced_perform
  traced_for_each : traced.

Ltac traced_steps :=
  repeat first
    [ apply traced_bind; [|intros ?]
    | case_decide
    | case_match
    | solve [eauto with traced] ].

Lemma traced_translate_batch B S0 src tgt model tokenizer ip i acc :
  traced (translate_batch B S0 src tgt model tokenizer ip i acc).
Proof. unfold translate_batch. traced_steps. Qed.

Lemma traced_batch_translate B S0 src tgt model tokenizer ip :
  traced (batch_translate B S0 src tgt model tokenizer ip).
Proof.
  unfold batch_translate. apply traced_bind; [apply traced_lift|].
  intros starts. apply traced_for_each. intros i acc.
  apply traced_translate_batch.
Qed.

Lemma traced_split_sentences input_text lang :
  traced (split_sentences input_text lang).
Proof. unfold split_sentences. traced_steps. Qed.

Lemma traced_initialize ckpt_dir quantization attn :
  traced (initialize_model_and_tokenizer ckpt_dir quantization attn).
Proof. unfold initialize_model_and_tokenizer. traced_steps. Qed.

(** ** Runs that return *)

Lemma bind_returns {A B} (m : M (W:=W) A) (k : A -> M (W:=W) B) w b w' evs :
  bind m k w = (Ok b, w', evs) ->
  exists a w1 evs1 evs2,
    m w = (Ok a, w1, evs1) /\ k a w1 = (Ok b, w', evs2) /\ evs = evs1 ++ evs2.
Proof.
  unfold bind. destruct (m w) as [[[a|e] w1] evs1]; [|discriminate].
  destruct (k a w1) as [[r w2] evs2] eqn:Hk. intros [= -> <- <-].
  by exists a, w1, evs1, evs2.
Qed.

Lemma perform_returns {A} (c : call) (f : ext (W:=W) A) w a w' evs :
  perform c f w = (Ok a, w', evs) ->
  f w = (Ok a, w') /\ evs = [Event c None].
Proof.
  unfold perform. destruct (f w) as [[a0|e] w1]; [|discriminate].
  by intros [= <- <- <-].
Qed.

Lemma ret_returns {A} (a : A) (w : W) b w' evs :
  ret a w = (Ok b, w', evs) -> b = a /\ w' = w /\ evs = [].
Proof. unfold ret. by intros [= <- <- <-]. Qed.

End Runs.

(** Take a returning run apart, call by call. *)
Ltac returns_inv H :=
  repeat match type of H with
         | bind _ _ _ = (Ok _, _, _) =>
             let H1 := fresh "Hcall" in
             apply bind_returns in H as (? & ? & ? & ? & H1 & H & ->);
             first [ apply perform_returns in H1 as [H1 ->]
                   | apply ret_returns in H1 as (-> & -> & ->) ]
         | ret _ _ = (Ok _, _, _) =>
             apply ret_returns in H as (-> & -> & ->)
         end.

Section Returning_runs.

Context {W Inputs Tokens : Type} `{!Externals (W:=W) (Inputs:=Inputs) (Tokens:=Tokens)}.

(** A turn that returns made its six calls, none of which raised. *)
Lemma translate_batch_returns B S0 src tgt model tokenizer ip i acc w out w' evs :
  translate_batch B S0 src tgt model tokenizer ip i acc w = (Ok out, w', evs) ->
  exists outputs,
    out = acc ++ outputs /\
    generate_calls evs = 1%nat /\
    preprocessed evs = [py_slice S0 i (i + B)].
Proof.
  unfold translate_batch. intros Hrun. returns_inv Hrun.
  eexists. split; [reflexivity|done].
Qed.

Lemma for_each_returns B S0 src tgt model tokenizer ip starts acc w out w' evs :
  for_each starts (translate_batch B S0 src tgt model tokenizer ip) acc w
    = (Ok out, w', evs) ->
  generate_calls evs = length starts /\
  preprocessed evs = map (fun i => py_slice S0 i (i + B)) starts.
Proof.
  revert acc w out w' evs.
  induction starts as [|i starts IH]; intros acc w out w' evs; simpl.
  - unfold ret. intros [= <- <- <-]. done.
  - unfold bind.
    destruct (translate_batch _ _ _ _ _ _ _ i acc w) as [[[a|e] w1] evs1] eqn:Hturn;
      [|discriminate].
    destruct (for_each _ _ a w1) as [[r w2] evs2] eqn:Hrest.
    intros [= -> <- <-].
    apply translate_batch_returns in Hturn as (outputs & _ & Hgen & Hpre).
    apply IH in Hrest as [Hgen' Hpre'].
    rewrite generate_calls_app, preprocessed_app, Hgen, Hpre, Hgen', Hpre'.
    done.
Qed.

Lemma batch_translate_returns B S0 src tgt model tokenizer ip w out w' evs :
  batch_translate B S0 src tgt model tokenizer ip w = (Ok out, w', evs) ->
  preprocessed evs = batches B S0 /\
  generate_calls evs = length (batches B S0).
Proof.
  unfold batch_translate, batches, bind.
  destruct (py_range 0 (len S0) B) as [starts|e]; simpl; [|discriminate].
  destruct (for_each _ _ _ w) as [[r w1] evs1] eqn:Hloop.
  intros [= -> <- <-]. apply for_each_returns in Hloop as [Hgen Hpre].
  by rewrite Hgen, Hpre, length_map.
Qed.

End Returning_runs.

(** ** Collaborators that work sentence by sentence *)

Section Per_sentence.

Context {W Inputs Tokens : Type} `{!Externals (W:=W) (Inputs:=Inputs) (Tokens:=Tokens)}.

Lemma runs_ret {A} (a : A) (w : W) : runs_to (ret a) w a w.
Proof. by exists []. Qed.

Lemma runs_perform {A} (c : call) (f : ext (W:=W) A) w a w' :
  f w = (Ok a, w') -> runs_to (perform c f) w a w'.
Proof. intros Hf. exists [Event c None]. unfold perform. by rewrite Hf. Qed.

Lemma runs_bind {A B} (m : M (W:=W) A) (k : A -> M (W:=W) B) w a w1 b w2 :
  runs_to m w a w1 -> runs_to (k a) w1 b w2 -> runs_to (bind m k) w b w2.
Proof.
  intros [evs1 Hm] [evs2 Hk]. exists (evs1 ++ evs2).
  unfold bind. by rewrite Hm, Hk.
Qed.

Variables (src_lang tgt_lang : string).
Variables (model : Model (W:=W) (Inputs:=Inputs) (Tokens:=Tokens)).
Variables (tokenizer : Tokenizer (W:=W) (Inputs:=Inputs) (Tokens:=Tokens)).
Variables (ip : IndicProcessor (W:=W)).

Variables (pre gen post : text -> text).
Hypothesis Hstages :
  per_sentence src_lang tgt_lang model tokenizer ip pre gen post.

Lemma translate_batch_per_sentence B S0 i acc w :
  exists w',
    runs_to (translate_batch B S0 src_lang tgt_lang model tokenizer ip i acc) w
            (acc ++ map (translation pre gen post) (py_slice S0 i (i + B))) w'.
Proof.
  destruct Hstages as (Hpre & Hgen & Hpost & Hcache).
  set (batch := py_slice S0 i (i + B)).
  destruct (Hpre batch w) as [w1 E1].
  destruct (Hgen (map pre batch) w1) as (inputs & w2 & tokens & w3 & w4 & E2 & E3 & E4).
  destruct (Hpost (map gen (map pre batch)) w4) as [w5 E5].
  destruct (Hcache w5) as [w6 E6].
  exists w6. unfold translate_batch. fold batch.
  eapply runs_bind; [by apply runs_perform|].
  eapply runs_bind; [by apply runs_perform|].
  eapply runs_bind; [by apply runs_perform|].
  eapply runs_bind; [by apply runs_perform|].
  eapply runs_bind; [by apply runs_perform|].
  eapply runs_bind; [by apply runs_perform|].
  rewrite !map_map. apply runs_ret.
Qed.

Lemma for_each_per_sentence B S0 m j acc w :
  1 <= B ->
  exists w',
    runs_to (for_each (map (fun k : nat => 0 + Z.of_nat k * B) (seq j m))
               (translate_batch B S0 src_lang tgt_lang model tokenizer ip) acc) w
            (acc ++ map (translation pre gen post)
                        (take (m * Z.to_nat B) (drop (j * Z.to_nat B) S0))) w'.
Proof.
  intros HB. revert j acc w. induction m as [|m IH]; intros j acc w; simpl.
  - exists w. rewrite app_nil_r. apply runs_ret.
  - destruct (translate_batch_per_sentence B S0 (0 + Z.of_nat j * B) acc w)
      as [w1 Hturn].
    rewrite py_slice_window, start_index in Hturn by lia.
    destruct (IH (S j) (acc ++ map (translation pre gen post)
                          (take (Z.to_nat B) (drop (j * Z.to_nat B) S0))) w1)
      as [w2 Hrest].
    exists w2. eapply runs_bind; [exact Hturn|].
    rewrite drop_window, <- app_assoc, <- map_app, take_take_drop in Hrest.
    exact Hrest.
Qed.

(** With sentence-by-sentence collaborators the driver maps [translation]
    over its input, whatever the positive batch size. *)
Lemma batch_translate_per_sentence B S0 w :
  1 <= B ->
  exists w',
    runs_to (batch_translate B S0 src_lang tgt_lang model tokenizer ip) w
            (map (translation pre gen post) S0) w'.
Proof.
  intros HB. unfold batch_translate.
  rewrite py_range_step_pos by (unfold len; lia).
  destruct (for_each_per_sentence B S0
              (Z.to_nat ((len S0 + B - 1) / B)) 0 [] w HB) as [w' Hloop].
  exists w'. eapply runs_bind; [apply runs_ret|].
  simpl in Hloop. rewrite drop_0, take_ge in Hloop
    by apply (loop_turns_bounds (length S0) B HB).
  exact Hloop.
Qed.

End Per_sentence.

(** ** What a run may call *)

Section Calls.

Context {W Inputs Tokens : Type} `{!Externals (W:=W) (Inputs:=Inputs) (Tokens:=Tokens)}.

Lemma emits_ret P {A} (a : A) : emits P (ret (W:=W) a).
Proof. intros w. constructor. Qed.

Lemma emits_raise P {A} (e : exn) : emits P (raise (W:=W) (A:=A) e).
Proof. intros w. constructor. Qed.

Lemma emits_lift P {A} (r : result A) : emits P (lift (W:=W) r).
Proof. destruct r; [apply emits_ret|apply emits_raise]. Qed.

Lemma emits_perform (P : call -> Prop) {A} (c : call) (f : ext (W:=W) A) :
  P c -> emits P (perform c f).
Proof.
  intros HP w. unfold perform.
  destruct (f w) as [[a|e] w1]; simpl; by repeat constructor.
Qed.

Lemma emits_bind P {A B} (m : M (W:=W) A) (k : A -> M (W:=W) B) :
  emits P m -> (forall a, emits P (k a)) -> emits P (bind m k).
Proof.
  intros Hm Hk w. unfold bind. specialize (Hm w).
  destruct (m w) as [[[a|e] w1] evs1]; simpl in *; [|done].
  specialize (Hk a w1). destruct (k a w1) as [[r w2] evs2]; simpl in *.
  by apply Forall_app.
Qed.

Lemma emits_for_each P {I A} (xs : list I) (body : I -> A -> M (W:=W) A) acc :
  (forall i a, emits P (body i a)) -> emits P (for_each xs body acc).
Proof.
  intros Hbody. revert acc. induction xs as [|x xs IH]; intros acc; simpl.
  - apply emits_ret.
  - apply emits_bind; [apply Hbody|apply IH].
Qed.

(** Every generation call carries the keyword arguments of lines 146-153:
    [num_beams=5] and [max_length=256] are literals of the call. *)
Lemma batch_translate_generate_kwargs B S0 src tgt model tokenizer ip :
  emits (fun c => forall kw, c = CallGenerate kw -> kw = GENERATE_KWARGS)
        (batch_translate B S0 src tgt model tokenizer ip).
Proof.
  unfold batch_translate. apply emits_bind; [apply emits_lift|].
  intros starts. apply emits_for_each. intros i acc.
  unfold translate_batch.
  repeat (apply emits_bind; [apply emits_perform; congruence|intros ?]).
  apply emits_ret.
Qed.

(** Whatever was requested, the model is loaded with the eager kernel:
    line 115 passes the literal ["eager"], not the variable set on
    lines 103-107. *)
Lemma initialize_loads_eager ckpt_dir quantization attn :
  emits (fun c => forall d kw,
           c = CallModelFromPretrained d kw ->
           attn_implementation kw = "eager"%string)
        (initialize_model_and_tokenizer ckpt_dir quantization attn).
Proof.
  unfold initialize_model_and_tokenizer.
  repeat first
    [ apply emits_bind; [|intros ?]
    | apply emits_ret
    | apply emits_perform; by intros ?? [= <- <-]
    | apply emits_perform; congruence
    | case_decide
    | case_match ].
Qed.

End Calls.

(** ** The splitter *)

Lemma flores_codes_eng : getitem flores_codes "eng_Latn" = Ok "en"%string.
Proof. reflexivity. Qed.

Lemma unregistered_not_eng (lang : string) :
  flores_codes !! lang = None -> lang <> "eng_Latn"%string.
Proof. intros Hnone ->. discriminate Hnone. Qed.

(** Removing one character leaves no occurrence of it. *)
Lemma replace_scan_char_absent (c : N) (s : text) :
  c ∉ replace_scan [c] [] 0 s.
Proof.
  induction s as [|a s IH]; simpl.
  - apply not_elem_of_nil.
  - destruct (N.eqb_spec c a) as [->|Hne]; simpl.
    + destruct s; exact IH.
    + apply not_elem_of_cons. split; [done|exact IH].
Qed.

Lemma str_replace_char_absent (c : N) (s : text) :
  c ∉ str_replace s [c] [].
Proof. apply replace_scan_char_absent. Qed.

Section Splitter.

Context {W Inputs Tokens : Type} {libs : Externals (W:=W) (Inputs:=Inputs) (Tokens:=Tokens)}.

(** The English branch, call by call. *)
Lemma split_sentences_eng_returns (input_text : text) (w : W) segs w' evs :
  split_sentences input_text "eng_Latn" w = (Ok segs, w', evs) ->
  exists first_nltk w1 sents_moses w2 sents_nltk,
    sent_tokenize input_text w = (Ok first_nltk, w1) /\
    MosesSentenceSplitter "en" [input_text] w1 = (Ok sents_moses, w2) /\
    sent_tokenize input_text w2 = (Ok sents_nltk, w') /\
    segs = map (fun sent => str_replace sent [SOFT_HYPHEN] [])
               (if len sents_nltk <? len sents_moses
                then sents_nltk else sents_moses).
Proof.
  unfold split_sentences. case_decide; [|done].
  rewrite flores_codes_eng. simpl lift. intros Hrun. returns_inv Hrun.
  eauto 10.
Qed.

End Splitter.

(** * The specification, claim by claim *)

Section Claims.

Context {W Inputs Tokens : Type} {libs : Externals (W:=W) (Inputs:=Inputs) (Tokens:=Tokens)}.

(** C1, as amended.  On English text, when the three splitter calls of
    lines 69-72 return, [split_sentences] returns the segmentation with the
    FEWER segments: the NLTK one when it is strictly shorter, Moses'
    otherwise (so also on a tie), each segment with its soft hyphens
    removed.  The number of segments returned is the minimum of the two
    counts; for counts 5 and 3 it is 3. *)
Theorem split_sentences_fewer_segments (input_text : text) (w w1 w2 w3 : W)
    (first_nltk sents_moses sents_nltk : list text) :
  sent_tokenize input_text w = (Ok first_nltk, w1) ->
  MosesSentenceSplitter "en" [input_text] w1 = (Ok sents_moses, w2) ->
  sent_tokenize input_text w2 = (Ok sents_nltk, w3) ->
  exists segs,
    (split_sentences input_text "eng_Latn" w).1.1 = Ok segs /\
    segs = map (fun sent => str_replace sent [SOFT_HYPHEN] [])
               (if len sents_nltk <? len sents_moses
                then sents_nltk else sents_moses) /\
    length segs = Nat.min (length sents_nltk) (length sents_moses).
Proof.
  intros Hfirst Hmoses Hnltk. eexists. split; [|split; [reflexivity|]].
  - unfold split_sentences. case_decide; [|done].
    rewrite flores_codes_eng. unfold bind, perform, lift, ret.
    by rewrite Hfirst, Hmoses, Hnltk.
  - rewrite length_map. unfold len.
    destruct (Z.ltb_spec (Z.of_nat (length sents_nltk))
                         (Z.of_nat (length sents_moses))); lia.
Qed.

(** C2, as amended.  For a language tag that is not a key of
    [flores_codes], [split_sentences] and [translate_paragraph] fail with
    [KeyError] on the tag, raised by the dictionary lookup before any
    external call: the trace is empty, so the model is never invoked. *)
Theorem unregistered_language_KeyError (lang : string) (batch_size : Z)
    (input_text : text) (tgt_lang : string) model tokenizer ip (w : W) :
  flores_codes !! lang = None ->
  split_sentences input_text lang w = (Err (KeyError lang), w, []) /\
  translate_paragraph batch_size input_text lang tgt_lang model tokenizer ip w
    = (Err (KeyError lang), w, []).
Proof.
  intros Hnone. pose proof (unregistered_not_eng lang Hnone) as Hne.
  assert (split_sentences input_text lang w = (Err (KeyError lang), w, []))
    as Hsplit.
  { unfold split_sentences. case_decide; [done|].
    unfold bind, lift, getitem. by rewrite Hnone. }
  split; [exact Hsplit|].
  unfold translate_paragraph, bind. by rewrite Hsplit.
Qed.

(** C3.  For every batch size [B >= 1] and every sentence sequence (empty
    or not), when preprocessing, encoding-generation-decoding and
    postprocessing each return one output per input in order,
    [batch_translate] returns a sequence as long as its input whose element
    at each position is the translation of the input sentence at that
    position. *)
Theorem batch_translate_positional src_lang tgt_lang model tokenizer ip
    (pre gen post : text -> text) (B : Z) (S0 : list text) (w : W) :
  1 <= B ->
  per_sentence src_lang tgt_lang model tokenizer ip pre gen post ->
  exists out,
    (batch_translate B S0 src_lang tgt_lang model tokenizer ip w).1.1 = Ok out /\
    length out = length S0 /\
    forall i s, S0 !! i = Some s ->
                out !! i = Some (translation pre gen post s).
Proof.
  intros HB Hstages.
  destruct (batch_translate_per_sentence _ _ _ _ _ _ _ _ Hstages B S0 w HB)
    as (w' & evs & Hrun).
  exists (map (translation pre gen post) S0). rewrite Hrun.
  split; [done|]. split; [apply length_map|].
  intros i s Hi. by rewrite list_lookup_fmap, Hi.
Qed.

(** C4.  Batching is transparent: with collaborators that work sentence by
    sentence, independently of the batch, any two batch sizes [B1, B2 >= 1]
    give the same result sequence for the same input. *)
Theorem batch_size_transparent src_lang tgt_lang model tokenizer ip
    (pre gen post : text -> text) (B1 B2 : Z) (S0 : list text) (w1 w2 : W) :
  1 <= B1 -> 1 <= B2 ->
  per_sentence src_lang tgt_lang model tokenizer ip pre gen post ->
  exists out,
    (batch_translate B1 S0 src_lang tgt_lang model tokenizer ip w1).1.1 = Ok out /\
    (batch_translate B2 S0 src_lang tgt_lang model tokenizer ip w2).1.1 = Ok out.
Proof.
  intros HB1 HB2 Hstages.
  destruct (batch_translate_per_sentence _ _ _ _ _ _ _ _ Hstages B1 S0 w1 HB1)
    as (w1' & evs1 & Hrun1).
  destruct (batch_translate_per_sentence _ _ _ _ _ _ _ _ Hstages B2 S0 w2 HB2)
    as (w2' & evs2 & Hrun2).
  exists (map (translation pre gen post) S0). by rewrite Hrun1, Hrun2.
Qed.

(** C5.  For a batch size [B >= 1] the batches of lines 131-132 are
    contiguous chunks of the input in its order (their concatenation is the
    input), there are ceil(len(S)/B) = (len(S) + B - 1) div B of them, none
    is empty, each has at most [B] sentences and each but the last has
    exactly [B].  A call that returns has handed exactly these batches to
    preprocessing, in order, and has invoked [model.generate] once per
    batch. *)
Theorem batch_translate_partition (B : Z) (S0 : list text) :
  1 <= B ->
  concat (batches B S0) = S0 /\
  len (batches B S0) = (len S0 + B - 1) / B /\
  (forall k b, batches B S0 !! k = Some b ->
     b <> [] /\ len b <= B /\
     (S k < length (batches B S0) -> len b = B)%nat) /\
  (forall src_lang tgt_lang model tokenizer ip (w : W) out w' evs,
     batch_translate B S0 src_lang tgt_lang model tokenizer ip w
       = (Ok out, w', evs) ->
     preprocessed evs = batches B S0 /\
     Z.of_nat (generate_calls evs) = (len S0 + B - 1) / B).
Proof.
  intros HB. split; [by apply batches_concat|].
  split; [by apply batches_length|].
  split; [intros k b; by apply batches_lookup|].
  intros src_lang tgt_lang model tokenizer ip w out w' evs Hrun.
  apply batch_translate_returns in Hrun as [Hpre Hgen].
  split; [exact Hpre|]. rewrite Hgen. by apply batches_length.
Qed.

(** C6, as amended.  If a [model.generate] call raises, [batch_translate]
    fails with the very exception that call raised (it is not wrapped, and
    no batch index is attached), that call is the last thing the run did,
    and the outcome is the exception alone: nothing accumulated for earlier
    batches is returned. *)
Theorem generate_exception_propagates (B : Z) (S0 : list text)
    src_lang tgt_lang model tokenizer ip (w : W) (kw : generate_kwargs) (e : exn) :
  Event (CallGenerate kw) (Some e)
    ∈ (batch_translate B S0 src_lang tgt_lang model tokenizer ip w).2 ->
  (batch_translate B S0 src_lang tgt_lang model tokenizer ip w).1.1 = Err e /\
  last (batch_translate B S0 src_lang tgt_lang model tokenizer ip w).2
    = Some (Event (CallGenerate kw) (Some e)).
Proof.
  intros Hin. eapply faithful_raise; [|exact Hin].
  apply traced_batch_translate.
Qed.

(** C7, as amended.  [batch_translate] validates no configuration value.
    With a batch size of zero it fails with the [ValueError] of [range];
    with a negative batch size it returns the empty list without an error;
    in both cases no external call is made, so the model is not invoked.
    Beam width and maximum length are not configurable: whatever the batch
    size, every generation call passes [num_beams=5] and
    [max_length=256]. *)
Theorem nonpositive_batch_size (B : Z) (S0 : list text)
    src_lang tgt_lang model tokenizer ip (w : W) :
  B <= 0 ->
  batch_translate B S0 src_lang tgt_lang model tokenizer ip w
    = (if decide (B = 0)
       then Err (ValueError "range() arg 3 must not be zero")
       else Ok [],
       w, []) /\
  (forall B' S' w' kw e,
     Event (CallGenerate kw) e
       ∈ (batch_translate B' S' src_lang tgt_lang model tokenizer ip w').2 ->
     num_beams kw = 5 /\ max_length kw = 256).
Proof.
  intros HB. split.
  - unfold batch_translate. case_decide as H0.
    + subst B. reflexivity.
    + rewrite py_range_step_neg by (unfold len; lia). reflexivity.
  - intros B' S' w' kw e Hin.
    pose proof (batch_translate_generate_kwargs
                  B' S' src_lang tgt_lang model tokenizer ip w') as Hall.
    rewrite Forall_forall in Hall. specialize (Hall _ Hin kw eq_refl).
    by subst kw.
Qed.

(** C9.  On English text every segment returned by [split_sentences] is
    free of the soft hyphen U+00AD. *)
Theorem split_sentences_no_soft_hyphen (input_text : text) (w : W)
    (segs : list text) (w' : W) (evs : list event) (seg : text) :
  split_sentences input_text "eng_Latn" w = (Ok segs, w', evs) ->
  seg ∈ segs ->
  SOFT_HYPHEN ∉ seg.
Proof.
  intros Hrun Hseg.
  apply split_sentences_eng_returns in Hrun
    as (? & ? & ? & ? & ? & _ & _ & _ & ->).
  apply list_elem_of_fmap in Hseg as (sent & -> & _).
  apply str_replace_char_absent.
Qed.

(** C10.  On the empty sentence sequence [batch_translate] returns the
    empty sequence and makes no external call at all (no preprocessing, no
    tokenization, no generation), for any language pair and any non-zero
    batch size, in particular the module's [BATCH_SIZE]. *)
Theorem batch_translate_empty (B : Z) src_lang tgt_lang model tokenizer ip (w : W) :
  B <> 0 ->
  batch_translate B [] src_lang tgt_lang model tokenizer ip w = (Ok [], w, []).
Proof.
  intros HB. unfold batch_translate.
  destruct (Z.lt_total B 0) as [Hneg|[Hzero|Hpos]]; [|done|].
  - by rewrite py_range_step_neg.
  - by rewrite py_range_step_pos, Z.div_small by (unfold len; simpl; lia).
Qed.

End Claims.

(** * Concrete runs *)

(** The test doubles work sentence by sentence. *)
Lemma stub_per_sentence (src_lang tgt_lang : string) (pre gen post : text -> text) :
  per_sentence (libs:=Stub.plain) src_lang tgt_lang
               (Stub.model gen) Stub.tokenizer (Stub.processor pre post)
               pre gen post.
Proof.
  repeat split; intros.
  - by eexists.
  - do 5 eexists. by repeat split.
  - by eexists.
  - by eexists.
Qed.

(** C1: a run of the amended statement, on a paragraph the general
    tokenizer cuts in five and the clause-aware splitter in three. *)
Lemma split_sentences_fewer_segments_witness :
  exists segs,
    (split_sentences (libs:=Stub.plain) Stub.paragraph "eng_Latn" 0%nat).1.1
      = Ok segs /\
    segs = map (fun sent => str_replace sent [SOFT_HYPHEN] []) Stub.three /\
    length segs = 3%nat.
Proof.
  exact (split_sentences_fewer_segments (libs:=Stub.plain)
           Stub.paragraph 0%nat 0%nat 0%nat 0%nat
           Stub.five Stub.three Stub.five eq_refl eq_refl eq_refl).
Defined.

(** C1 fails as stated: with five segments from the general tokenizer and
    three from the clause-aware splitter, the result has three segments,
    not five. *)
Lemma split_sentences_greater_counterexample :
  length Stub.five = 5%nat /\ length Stub.three = 3%nat /\
  exists segs,
    (split_sentences (libs:=Stub.plain) Stub.paragraph "eng_Latn" 0%nat).1.1
      = Ok segs /\
    length segs = 3%nat /\
    length segs <> Nat.max (length Stub.five) (length Stub.three).
Proof.
  split; [reflexivity|]. split; [reflexivity|].
  eexists. split; [reflexivity|]. split; [reflexivity|].
  vm_compute. discriminate.
Qed.

(** C2: a run of the amended statement on the unregistered tag
    ["xx_Xxxx"]. *)
Lemma unregistered_language_KeyError_witness :
  split_sentences (libs:=Stub.plain) Stub.paragraph "xx_Xxxx" 0%nat
    = (Err (KeyError "xx_Xxxx"), 0%nat, []) /\
  translate_paragraph (libs:=Stub.plain) BATCH_SIZE Stub.paragraph
      "xx_Xxxx" "hin_Deva" (Stub.model id) Stub.tokenizer (Stub.processor id id)
      0%nat
    = (Err (KeyError "xx_Xxxx"), 0%nat, []).
Proof.
  apply (unregistered_language_KeyError (libs:=Stub.plain)). reflexivity.
Defined.

(** C2 fails as stated: on the unregistered tag ["xx_Xxxx"] the splitter
    raises [KeyError], not [UnsupportedLanguageError]; and [batch_translate]
    called with that tag checks nothing and invokes the model. *)
Lemma unsupported_language_counterexample :
  flores_codes !! "xx_Xxxx"%string = None /\
  (exists e,
     (split_sentences (libs:=Stub.plain) Stub.paragraph "xx_Xxxx" 0%nat).1.1
       = Err e /\
     exn_class e <> "UnsupportedLanguageError"%string) /\
  (exists out,
     (batch_translate (libs:=Stub.plain) BATCH_SIZE Stub.hello
        "xx_Xxxx" "hin_Deva" (Stub.model id) Stub.tokenizer
        (Stub.processor id id) 0%nat).1.1 = Ok out /\
     generate_calls
       (batch_translate (libs:=Stub.plain) BATCH_SIZE Stub.hello
          "xx_Xxxx" "hin_Deva" (Stub.model id) Stub.tokenizer
          (Stub.processor id id) 0%nat).2 = 1%nat).
Proof.
  split; [reflexivity|]. split.
  - eexists. split; [reflexivity|]. discriminate.
  - eexists. split; reflexivity.
Qed.

(** C3: the end-to-end scenario, batch size 1 and a model that upper-cases
    its input. *)
Lemma batch_translate_positional_witness :
  exists out,
    (batch_translate (libs:=Stub.plain) 1 Stub.hello "eng_Latn" "hin_Deva"
       (Stub.model Stub.upper) Stub.tokenizer (Stub.processor id id)
       0%nat).1.1 = Ok out /\
    length out = length Stub.hello /\
    forall i s, Stub.hello !! i = Some s ->
                out !! i = Some (translation id Stub.upper id s).
Proof.
  apply batch_translate_positional; [lia|apply stub_per_sentence].
Defined.

(** C4: batch sizes 1 and 4 on the same three sentences. *)
Lemma batch_size_transparent_witness :
  exists out,
    (batch_translate (libs:=Stub.plain) 1 Stub.abc "eng_Latn" "hin_Deva"
       (Stub.model Stub.upper) Stub.tokenizer (Stub.processor id id)
       0%nat).1.1 = Ok out /\
    (batch_translate (libs:=Stub.plain) BATCH_SIZE Stub.abc "eng_Latn" "hin_Deva"
       (Stub.model Stub.upper) Stub.tokenizer (Stub.processor id id)
       0%nat).1.1 = Ok out.
Proof.
  apply (batch_size_transparent (libs:=Stub.plain) _ _ _ _ _ id Stub.upper id);
    [lia|unfold BATCH_SIZE; lia|apply stub_per_sentence].
Defined.

(** C5: two sentences with batch size 1 make two batches and two
    generation calls. *)
Lemma batch_translate_partition_witness :
  concat (batches 1 Stub.hello) = Stub.hello /\
  len (batches 1 Stub.hello) = 2 /\
  Z.of_nat (generate_calls
    (batch_translate (libs:=Stub.plain) 1 Stub.hello "eng_Latn" "hin_Deva"
       (Stub.model Stub.upper) Stub.tokenizer (Stub.processor id id)
       0%nat).2) = 2.
Proof.
  destruct (batch_translate_partition (libs:=Stub.plain) 1 Stub.hello ltac:(lia))
    as (Hconcat & Hlen & _ & Hrun).
  split; [exact Hconcat|]. split; [exact Hlen|].
  exact (proj2 (Hrun "eng_Latn"%string "hin_Deva"%string
                  (Stub.model Stub.upper) Stub.tokenizer (Stub.processor id id)
                  0%nat _ _ _ eq_refl)).
Defined.

(** C6: three sentences, batch size 1, and a model whose second call
    raises. *)
Lemma generate_exception_propagates_witness :
  (batch_translate (libs:=Stub.plain) 1 Stub.abc "eng_Latn" "hin_Deva"
     (Stub.failing_model 1) Stub.tokenizer (Stub.processor id id)
     0%nat).1.1 = Err (Exn "RuntimeError" "CUDA out of memory") /\
  last (batch_translate (libs:=Stub.plain) 1 Stub.abc "eng_Latn" "hin_Deva"
          (Stub.failing_model 1) Stub.tokenizer (Stub.processor id id)
          0%nat).2
    = Some (Event (CallGenerate GENERATE_KWARGS)
                  (Some (Exn "RuntimeError" "CUDA out of memory"))).
Proof.
  apply generate_exception_propagates.
  apply list_elem_of_lookup. exists 8%nat. reflexivity.
Defined.

(** C6 fails as stated: when the second generation call raises
    [RuntimeError], the call fails with that [RuntimeError], not with a
    [ModelInvocationError]. *)
Lemma model_invocation_error_counterexample :
  exists e,
    Event (CallGenerate GENERATE_KWARGS) (Some e)
      ∈ (batch_translate (libs:=Stub.plain) 1 Stub.abc "eng_Latn" "hin_Deva"
           (Stub.failing_model 1) Stub.tokenizer (Stub.processor id id)
           0%nat).2 /\
    (batch_translate (libs:=Stub.plain) 1 Stub.abc "eng_Latn" "hin_Deva"
       (Stub.failing_model 1) Stub.tokenizer (Stub.processor id id)
       0%nat).1.1 = Err e /\
    exn_class e <> "ModelInvocationError"%string.
Proof.
  exists (Exn "RuntimeError" "CUDA out of memory"). split; [|split].
  - apply list_elem_of_lookup. exists 8%nat. reflexivity.
  - reflexivity.
  - discriminate.
Qed.

(** C7: a run of the amended statement at batch size -1. *)
Lemma nonpositive_batch_size_witness :
  -1 <= 0 /\
  batch_translate (libs:=Stub.plain) (-1) Stub.hello "eng_Latn" "hin_Deva"
    (Stub.model Stub.upper) Stub.tokenizer (Stub.processor id id) 0%nat
  = (Ok [], 0%nat, []).
Proof.
  split; [lia|].
  exact (proj1 (nonpositive_batch_size (libs:=Stub.plain) (-1) Stub.hello
                  "eng_Latn" "hin_Deva" (Stub.model Stub.upper) Stub.tokenizer
                  (Stub.processor id id) 0%nat ltac:(lia))).
Defined.

(** C7 fails as stated: a negative batch size makes the call return the
    empty list without any error, and a zero batch size makes it fail with
    [ValueError], not [ConfigurationError]. *)
Lemma configuration_error_counterexample :
  batch_translate (libs:=Stub.plain) (-1) Stub.hello "eng_Latn" "hin_Deva"
    (Stub.model Stub.upper) Stub.tokenizer (Stub.processor id id) 0%nat
  = (Ok [], 0%nat, []) /\
  exists e,
    (batch_translate (libs:=Stub.plain) 0 Stub.hello "eng_Latn" "hin_Deva"
       (Stub.model Stub.upper) Stub.tokenizer (Stub.processor id id)
       0%nat).1.1 = Err e /\
    exn_class e <> "ConfigurationError"%string.
Proof.
  split; [reflexivity|]. eexists. split; [reflexivity|]. discriminate.
Qed.

(** C8 fails on the code: ["flash_attention_2"] is requested and both
    capability checks answer [True], yet the model is loaded with
    [attn_implementation="eager"]. *)
Theorem flash_attention_request_loads_eager :
  (initialize_model_and_tokenizer (libs:=Stub.plain)
     en_indic_ckpt_dir "" "flash_attention_2" 0%nat).2
  = [ Event CallFlashAvailable None;
      Event CallFlashGe210 None;
      Event (CallTokenizerFromPretrained en_indic_ckpt_dir) None;
      Event (CallModelFromPretrained en_indic_ckpt_dir
               {| trust_remote_code := true;
                  attn_implementation := "eager";
                  low_cpu_mem_usage := true;
                  quantization_config := None |}) None;
      Event (CallModelTo "cpu") None;
      Event CallModelHalf None;
      Event CallModelEval None ].
Proof. reflexivity. Qed.

(** C9: the paragraph holds a soft hyphen, and the segment cut from around
    it comes back without. *)
Lemma split_sentences_no_soft_hyphen_witness :
  SOFT_HYPHEN ∈ Stub.paragraph /\
  SOFT_HYPHEN ∉ Stub.str "Three. Four.".
Proof.
  split.
  - apply list_elem_of_lookup. exists 12%nat. reflexivity.
  - eapply (split_sentences_no_soft_hyphen (libs:=Stub.plain)
              Stub.paragraph 0%nat); [reflexivity|].
    apply list_elem_of_lookup. exists 1%nat. reflexivity.
Defined.

(** C10: the empty input at the module's batch size. *)
Lemma batch_translate_empty_witness :
  batch_translate (libs:=Stub.plain) BATCH_SIZE [] "eng_Latn" "hin_Deva"
    (Stub.model id) Stub.tokenizer (Stub.processor id id) 0%nat
  = (Ok [], 0%nat, []).
Proof. apply batch_translate_empty. discriminate. Defined.

(** * Further properties of the script *)

(** ** Replacement of one character *)

(** Replacing a one-character pattern by the empty string filters that
    character out and keeps every other character in place. *)
Lemma replace_scan_char_filter (c : N) (s : text) :
  replace_scan [c] [] 0 s = filter (fun x => x <> c) s.
Proof.
  induction s as [|a s IH]; simpl; [done|].
  destruct (N.eqb_spec c a) as [->|Hne]; simpl.
  - rewrite filter_cons_False by (intros Hne; by apply Hne).
    destruct s; exact IH.
  - rewrite filter_cons_True by congruence. by rewrite IH.
Qed.

Section Paragraphs.

Context {W Inputs Tokens : Type} {libs : Externals (W:=W) (Inputs:=Inputs) (Tokens:=Tokens)}.

Lemma traced_translate_paragraph B input_text src tgt model tokenizer ip :
  traced (translate_paragraph B input_text src tgt model tokenizer ip).
Proof.
  unfold translate_paragraph.
  apply traced_bind; [apply traced_split_sentences|intros segs].
  apply traced_bind; [apply traced_batch_translate|intros out].
  apply traced_ret.
Qed.

(** The splitter calls neither the processor nor the model. *)
Lemma split_sentences_calls input_text lang :
  emits (fun c => (forall kw, c <> CallGenerate kw) /\
                  (forall b s t, c <> CallPreprocess b s t))
        (split_sentences input_text lang).
Proof.
  unfold split_sentences.
  repeat first
    [ apply emits_bind; [|intros ?]
    | apply emits_ret
    | apply emits_lift
    | apply emits_perform; by split
    | case_decide ].
Qed.

Lemma no_generate_calls (evs : list event) :
  Forall (fun ev => (forall kw, ev_call ev <> CallGenerate kw) /\
                    (forall b s t, ev_call ev <> CallPreprocess b s t)) evs ->
  generate_calls evs = 0%nat /\ preprocessed evs = [].
Proof.
  induction 1 as [|ev evs [Hgen Hpre] _ [IHgen IHpre]]; [done|].
  change (ev :: evs) with ([ev] ++ evs).
  rewrite generate_calls_app, preprocessed_app, IHgen, IHpre.
  destruct ev as [c r]. destruct c; simpl in *; try done.
  - by destruct (Hpre batch src_lang tgt_lang).
  - by destruct (Hgen kw).
Qed.

End Paragraphs.

(** ** The splitter and the paragraph driver *)

Section Splitting.

Context {W Inputs Tokens : Type} {libs : Externals (W:=W) (Inputs:=Inputs) (Tokens:=Tokens)}.

(** X1.  On English text each returned segment is the corresponding
    segment of the chosen segmentation with its soft hyphens filtered out:
    every other character is kept, in place and in order, and no segment is
    added or dropped. *)
Theorem split_sentences_eng_filters (input_text : text) (w : W)
    (segs : list text) (w' : W) (evs : list event) :
  split_sentences input_text "eng_Latn" w = (Ok segs, w', evs) ->
  exists first_nltk w1 sents_moses w2 sents_nltk,
    sent_tokenize input_text w = (Ok first_nltk, w1) /\
    MosesSentenceSplitter "en" [input_text] w1 = (Ok sents_moses, w2) /\
    sent_tokenize input_text w2 = (Ok sents_nltk, w') /\
    segs = map (filter (fun c => c <> SOFT_HYPHEN))
               (if len sents_nltk <? len sents_moses
                then sents_nltk else sents_moses).
Proof.
  intros Hrun.
  apply split_sentences_eng_returns in Hrun
    as (first_nltk & w1 & sents_moses & w2 & sents_nltk & H1 & H2 & H3 & ->).
  exists first_nltk, w1, sents_moses, w2, sents_nltk.
  repeat split; try done.
  apply map_ext. intros sent. apply replace_scan_char_filter.
Qed.

(** X2.  For a registered tag other than ["eng_Latn"], [split_sentences]
    is one call of [sentence_split] on the whole text with the code the tag
    maps to: its result or its exception is the outcome, unchanged (soft
    hyphens are not removed on this branch). *)
Theorem split_sentences_indic_delegates (input_text : text)
    (lang code : string) (w : W) :
  lang <> "eng_Latn"%string ->
  flores_codes !! lang = Some code ->
  split_sentences input_text lang w =
    match sentence_split input_text code w with
    | (Ok sents, w1) =>
        (Ok sents, w1, [Event (CallSentenceSplit input_text code) None])
    | (Err e, w1) =>
        (Err e, w1, [Event (CallSentenceSplit input_text code) (Some e)])
    end.
Proof.
  intros Hne Hcode. unfold split_sentences. case_decide; [done|].
  unfold getitem. rewrite Hcode. unfold bind, lift, ret, perform.
  by destruct (sentence_split input_text code w) as [[sents|e] w1].
Qed.

(** X3.  With sentence-by-sentence collaborators and a batch size of at
    least 1, [translate_paragraph] returns the translations of the
    sentences found by the splitter, in order, joined by single spaces. *)
Theorem translate_paragraph_joins (B : Z) (input_text : text)
    src_lang tgt_lang model tokenizer ip (pre gen post : text -> text)
    (w : W) (segs : list text) (w1 : W) (evs1 : list event) :
  1 <= B ->
  per_sentence src_lang tgt_lang model tokenizer ip pre gen post ->
  split_sentences input_text src_lang w = (Ok segs, w1, evs1) ->
  (translate_paragraph B input_text src_lang tgt_lang model tokenizer ip w).1.1
    = Ok (join_space (map (translation pre gen post) segs)).
Proof.
  intros HB Hstages Hsplit.
  destruct (batch_translate_per_sentence _ _ _ _ _ _ _ _ Hstages B segs w1 HB)
    as (w2 & evs2 & Hrun).
  unfold translate_paragraph, bind. by rewrite Hsplit, Hrun.
Qed.

(** X4.  If the splitter fails, [translate_paragraph] fails with the same
    exception after the same calls: nothing is handed to the processor and
    the model is not invoked. *)
Theorem translate_paragraph_split_failure (B : Z) (input_text : text)
    src_lang tgt_lang model tokenizer ip (w : W) (e : exn) (w1 : W)
    (evs : list event) :
  split_sentences input_text src_lang w = (Err e, w1, evs) ->
  translate_paragraph B input_text src_lang tgt_lang model tokenizer ip w
    = (Err e, w1, evs) /\
  generate_calls evs = 0%nat /\ preprocessed evs = [].
Proof.
  intros Hsplit. split.
  - unfold translate_paragraph, bind. by rewrite Hsplit.
  - apply no_generate_calls.
    pose proof (split_sentences_calls input_text src_lang w) as Hcalls.
    by rewrite Hsplit in Hcalls.
Qed.

(** X5.  Whatever external call raises during [translate_paragraph] (a
    splitter, the processor, the tokenizer, the model or the cache
    release), that call is the last thing the run does and its exception,
    unchanged, is the outcome of the run. *)
Theorem translate_paragraph_exception_propagates (B : Z) (input_text : text)
    src_lang tgt_lang model tokenizer ip (w : W) (c : call) (e : exn) :
  Event c (Some e)
    ∈ (translate_paragraph B input_text src_lang tgt_lang model tokenizer ip w).2 ->
  (translate_paragraph B input_text src_lang tgt_lang model tokenizer ip w).1.1
    = Err e /\
  last (translate_paragraph B input_text src_lang tgt_lang model tokenizer ip w).2
    = Some (Event c (Some e)).
Proof.
  intros Hin. eapply faithful_raise; [|exact Hin].
  apply traced_translate_paragraph.
Qed.

(** X6.  When the splitter finds no sentence, [translate_paragraph] returns
    the empty string and makes no call beyond those of the splitter, for
    any non-zero batch size. *)
Theorem translate_paragraph_no_sentence (B : Z) (input_text : text)
    src_lang tgt_lang model tokenizer ip (w w1 : W) (evs : list event) :
  B <> 0 ->
  split_sentences input_text src_lang w = (Ok [], w1, evs) ->
  translate_paragraph B input_text src_lang tgt_lang model tokenizer ip w
    = (Ok [], w1, evs).
Proof.
  intros HB Hsplit. unfold translate_paragraph, bind. rewrite Hsplit.
  assert (py_range 0 (len (@nil text)) B = Ok []) as Hrange.
  { destruct (Z.lt_total B 0) as [Hneg|[Hzero|Hpos]]; [|done|].
    - by rewrite py_range_step_neg.
    - by rewrite py_range_step_pos, Z.div_small by (unfold len; simpl; lia). }
  unfold batch_translate, bind. rewrite Hrange. simpl.
  by rewrite app_nil_r.
Qed.

End Splitting.

(** ** Every run of the batch loop *)

Section Batching.

Context {W Inputs Tokens : Type} {libs : Externals (W:=W) (Inputs:=Inputs) (Tokens:=Tokens)}.

(** Whatever its outcome, a turn hands its slice to the processor first and
    invokes the model at most once. *)
Lemma translate_batch_any B S0 src tgt model tokenizer ip i acc (w : W) :
  preprocessed (translate_batch B S0 src tgt model tokenizer ip i acc w).2
    = [py_slice S0 i (i + B)] /\
  (generate_calls (translate_batch B S0 src tgt model tokenizer ip i acc w).2
     <= 1)%nat.
Proof.
  unfold translate_batch, bind, perform, ret.
  repeat case_match; simplify_eq; simpl; split;
    (reflexivity || (vm_compute; lia)).
Qed.

Lemma for_each_any B S0 src tgt model tokenizer ip starts acc (w : W) :
  let evs := (for_each starts
                (translate_batch B S0 src tgt model tokenizer ip) acc w).2 in
  preprocessed evs `prefix_of` map (fun i => py_slice S0 i (i + B)) starts /\
  (generate_calls evs <= length (preprocessed evs))%nat.
Proof.
  revert acc w. induction starts as [|i starts IH]; intros acc w; simpl.
  - split; [apply prefix_nil|done].
  - destruct (translate_batch_any B S0 src tgt model tokenizer ip i acc w)
      as [Hpre Hgen].
    unfold bind.
    destruct (translate_batch _ _ _ _ _ _ _ i acc w) as [[[a|e] w1] evs1];
      simpl in *.
    + specialize (IH a w1). simpl in IH. destruct IH as [IHpre IHgen].
      destruct (for_each _ _ a w1) as [[r w2] evs2]; simpl in *.
      rewrite preprocessed_app, generate_calls_app, Hpre. simpl. split.
      * by apply prefix_cons.
      * lia.
    + rewrite Hpre. simpl. split; [|lia].
      apply prefix_cons, prefix_nil.
Qed.

(** The callees of a turn that returns. *)
Lemma translate_batch_callees B S0 src tgt model tokenizer ip i acc (w : W)
    out w' evs :
  translate_batch B S0 src tgt model tokenizer ip i acc w = (Ok out, w', evs) ->
  clean evs /\
  callees evs = [ "ip.preprocess_batch"; "tokenizer"; "model.generate";
                  "tokenizer.batch_decode"; "ip.postprocess_batch";
                  "torch.cuda.empty_cache" ]%string.
Proof.
  unfold translate_batch. intros Hrun. returns_inv Hrun.
  split; [by repeat constructor|reflexivity].
Qed.

Lemma for_each_callees B S0 src tgt model tokenizer ip starts acc (w : W)
    out w' evs :
  for_each starts (translate_batch B S0 src tgt model tokenizer ip) acc w
    = (Ok out, w', evs) ->
  clean evs /\
  callees evs =
    concat (replicate (length starts)
              [ "ip.preprocess_batch"; "tokenizer"; "model.generate";
                "tokenizer.batch_decode"; "ip.postprocess_batch";
                "torch.cuda.empty_cache" ]%string).
Proof.
  revert acc w out w' evs.
  induction starts as [|i starts IH]; intros acc w out w' evs; simpl.
  - unfold ret. intros [= <- <- <-]. split; [constructor|done].
  - intros Hrun.
    apply bind_returns in Hrun as (a & w1 & evs1 & evs2 & Hturn & Hrest & ->).
    apply translate_batch_callees in Hturn as [Hclean1 Hnames1].
    apply IH in Hrest as [Hclean2 Hnames2].
    split; [by apply Forall_app|].
    unfold callees in *. by rewrite map_app, Hnames1, Hnames2.
Qed.

(** X7.  In every run of [batch_translate] with a batch size of at least 1,
    returning or not, the batches handed to the processor so far are a
    prefix of the batch list (no batch is skipped, repeated or reordered),
    and the model has been invoked at most once per batch handed over (no
    retry). *)
Theorem batch_translate_in_order (B : Z) (S0 : list text)
    src_lang tgt_lang model tokenizer ip (w : W) :
  1 <= B ->
  preprocessed (batch_translate B S0 src_lang tgt_lang model tokenizer ip w).2
    `prefix_of` batches B S0 /\
  (generate_calls (batch_translate B S0 src_lang tgt_lang model tokenizer ip w).2
     <= length (preprocessed
          (batch_translate B S0 src_lang tgt_lang model tokenizer ip w).2))%nat.
Proof.
  intros HB. unfold batch_translate, batches.
  rewrite py_range_step_pos by (unfold len; lia).
  set (starts := map _ (seq 0 _)).
  pose proof (for_each_any B S0 src_lang tgt_lang model tokenizer ip
                starts [] w) as Hany.
  unfold bind. simpl in *.
  destruct (for_each starts _ [] w) as [[r w1] evs]. exact Hany.
Qed.

(** X8.  A call of [batch_translate] that returns has made, for each batch
    in turn, exactly the six calls preprocess, tokenize, generate, decode,
    postprocess, release the device cache, in this order, and none of them
    raised. *)
Theorem batch_translate_call_sequence (B : Z) (S0 : list text)
    src_lang tgt_lang model tokenizer ip (w : W) out w' evs :
  batch_translate B S0 src_lang tgt_lang model tokenizer ip w
    = (Ok out, w', evs) ->
  clean evs /\
  callees evs =
    concat (replicate (length (batches B S0))
              [ "ip.preprocess_batch"; "tokenizer"; "model.generate";
                "tokenizer.batch_decode"; "ip.postprocess_batch";
                "torch.cuda.empty_cache" ]%string).
Proof.
  unfold batch_translate, batches, bind.
  destruct (py_range 0 (len S0) B) as [starts|e]; simpl; [|discriminate].
  destruct (for_each _ _ _ w) as [[r w1] evs1] eqn:Hloop.
  intros [= -> <- <-]. apply for_each_callees in Hloop.
  by rewrite length_map.
Qed.

(** X9.  A non-empty input no longer than the batch size is translated as
    one batch, the whole input: a call that returns made one call of the
    processor, on the input itself, and one invocation of the model. *)
Theorem batch_translate_single_batch (B : Z) (S0 : list text)
    src_lang tgt_lang model tokenizer ip (w : W) out w' evs :
  S0 <> [] -> len S0 <= B ->
  batch_translate B S0 src_lang tgt_lang model tokenizer ip w
    = (Ok out, w', evs) ->
  batches B S0 = [S0] /\
  preprocessed evs = [S0] /\ generate_calls evs = 1%nat.
Proof.
  intros Hne Hle Hrun.
  assert (1 <= len S0) as Hpos.
  { unfold len. destruct S0; [done|]. simpl. lia. }
  assert (batches B S0 = [S0]) as Hone.
  { rewrite batches_windows by lia.
    replace ((len S0 + B - 1) / B) with 1.
    - simpl. rewrite drop_0. f_equal. apply take_ge. unfold len in Hle. lia.
    - apply Z.div_unique_pos with (r := len S0 - 1); lia. }
  apply batch_translate_returns in Hrun as [Hpre Hgen].
  by rewrite Hpre, Hgen, Hone.
Qed.

(** X10.  With a batch size of 1 every sentence is a batch of its own: a
    call that returns handed the sentences to the processor one by one, in
    order, and invoked the model once per sentence. *)
Theorem batch_translate_one_by_one (S0 : list text)
    src_lang tgt_lang model tokenizer ip (w : W) out w' evs :
  batch_translate 1 S0 src_lang tgt_lang model tokenizer ip w
    = (Ok out, w', evs) ->
  preprocessed evs = map (fun s => [s]) S0 /\
  generate_calls evs = length S0.
Proof.
  intros Hrun.
  assert (batches 1 S0 = map (fun s => [s]) S0) as Hone.
  { apply list_eq. intros k.
    rewrite batches_windows by lia.
    rewrite !list_lookup_fmap.
    replace ((len S0 + 1 - 1) / 1) with (len S0)
      by (rewrite Z.div_1_r; lia).
    unfold len. rewrite Nat2Z.id.
    destruct (decide (k < length S0)%nat) as [Hlt|Hge].
    - rewrite lookup_seq_lt by done. simpl.
      destruct (lookup_lt_is_Some_2 S0 k Hlt) as [s Hs]. rewrite Hs. simpl.
      rewrite Nat.mul_1_r. f_equal.
      apply take_drop_middle in Hs. rewrite <- Hs at 1.
      rewrite drop_app_length'; [done|].
      rewrite length_take. lia.
    - rewrite lookup_seq_ge by lia.
      by rewrite lookup_ge_None_2 by lia. }
  apply batch_translate_returns in Hrun as [Hpre Hgen].
  by rewrite Hpre, Hgen, Hone, length_map.
Qed.

End Batching.

(** ** Loading a model *)

Section Loading.

Context {W Inputs Tokens : Type} {libs : Externals (W:=W) (Inputs:=Inputs) (Tokens:=Tokens)}.

Ltac emits_calls :=
  repeat first
    [ apply emits_bind; [|intros ?]
    | apply emits_ret
    | apply emits_perform; solve [auto | split; congruence | congruence]
    | case_decide
    | case_match ].

(** X11.  A model loaded with 4-bit or 8-bit quantisation is never moved
    to the device and never converted to half precision, in any run. *)
Theorem quantized_model_not_moved (ckpt_dir quantization attn : string) (w : W) :
  quantization = "4-bit"%string \/ quantization = "8-bit"%string ->
  Forall (fun ev => ev_call ev <> CallModelHalf /\
                    forall device, ev_call ev <> CallModelTo device)
         (initialize_model_and_tokenizer ckpt_dir quantization attn w).2.
Proof.
  intros Hq.
  assert (emits (fun c => c <> CallModelHalf /\
                          forall device, c <> CallModelTo device)
                (initialize_model_and_tokenizer ckpt_dir quantization attn))
    as Hemits; [|exact (Hemits w)].
  unfold initialize_model_and_tokenizer.
  destruct Hq as [-> | ->]; emits_calls; done.
Qed.

(** An event of a sequence belongs to its first part, or to its second
    part run after the first returned. *)
Lemma elem_of_bind {A B} (m : M (W:=W) A) (k : A -> M (W:=W) B) (w : W)
    (ev : event) :
  ev ∈ (bind m k w).2 ->
  ev ∈ (m w).2 \/
  exists a w1 evs1, m w = (Ok a, w1, evs1) /\ ev ∈ (k a w1).2.
Proof.
  unfold bind. destruct (m w) as [[[a|e] w1] evs1]; simpl; [|by left].
  destruct (k a w1) as [[r w2] evs2] eqn:Hk; simpl.
  intros [Hin|Hin]%elem_of_app; [by left|right].
  exists a, w1, evs1. by rewrite Hk.
Qed.

(** X12.  The capability checks are made only when ["flash_attention_2"]
    is requested, and the version check only after the availability check
    has answered [True]. *)
Theorem flash_checks_on_request (ckpt_dir quantization attn : string) (w : W)
    (c : call) (r : option exn) :
  c = CallFlashAvailable \/ c = CallFlashGe210 ->
  Event c r ∈ (initialize_model_and_tokenizer ckpt_dir quantization attn w).2 ->
  attn = "flash_attention_2"%string /\
  (c = CallFlashGe210 ->
   exists w1, is_flash_attn_2_available w = (Ok true, w1)).
Proof.
  intros Hc Hin. unfold initialize_model_and_tokenizer in Hin.
  apply elem_of_bind in Hin as [Hin|(a & w1 & evs1 & _ & Hin)].
  - case_decide as Hattn; [|by apply elem_of_nil in Hin].
    split; [done|]. intros ->.
    apply elem_of_bind in Hin as [Hin|(available & w1 & evs1 & Havail & Hin)].
    + unfold perform in Hin.
      destruct (is_flash_attn_2_available w) as [[?|?] ?]; simpl in Hin;
        by apply list_elem_of_singleton in Hin.
    + apply perform_returns in Havail as [Havail _].
      destruct available; [by exists w1|].
      apply elem_of_bind in Hin as [Hin|(? & ? & ? & [= <- <- <-] & Hin)];
        by apply elem_of_nil in Hin.
  - exfalso. revert Hin.
    match goal with
    | |- _ ∈ (?m w1).2 -> _ =>
        assert (emits (fun c => c <> CallFlashAvailable /\ c <> CallFlashGe210) m)
          as Hrest by emits_calls
    end.
    intros Hin. specialize (Hrest w1). rewrite Forall_forall in Hrest.
    destruct (Hrest _ Hin) as [Havail Hrecent]. simpl in *.
    by destruct Hc as [-> | ->].
Qed.

Ltac run_inv :=
  repeat match goal with
         | H : bind _ _ _ = (Ok _, _, _) |- _ =>
             apply bind_returns in H as (? & ? & ? & ? & ? & ? & ?)
         | H : perform _ _ _ = (Ok _, _, _) |- _ =>
             apply perform_returns in H as [? ?]
         | H : ret _ _ = (Ok _, _, _) |- _ =>
             apply ret_returns in H as (? & ? & ?)
         end;
  simplify_eq.

(** X13.  A load that returns has made, after the capability checks if
    any, these calls and no other, none of which raised: load the
    tokenizer; load the model with remote code trusted, low CPU memory use
    and the quantisation configuration selected by the argument (4-bit,
    8-bit, or none for any other string); for an unquantised model only,
    move it to [DEVICE] and convert it to half precision; switch the model
    to evaluation mode. *)
Theorem initialize_call_sequence (ckpt_dir quantization attn : string) (w : W)
    (loaded : Tokenizer * Model) (w' : W) (evs : list event) :
  initialize_model_and_tokenizer ckpt_dir quantization attn w
    = (Ok loaded, w', evs) ->
  let qconfig :=
    if decide (quantization = "4-bit"%string) then Some Load4bit
    else if decide (quantization = "8-bit"%string) then Some Load8bit
    else None in
  exists checks kw,
    Forall (fun ev => ev_call ev = CallFlashAvailable \/
                      ev_call ev = CallFlashGe210) checks /\
    trust_remote_code kw = true /\ low_cpu_mem_usage kw = true /\
    quantization_config kw = qconfig /\
    evs = checks
          ++ [ Event (CallTokenizerFromPretrained ckpt_dir) None;
               Event (CallModelFromPretrained ckpt_dir kw) None ]
          ++ (match qconfig with
              | None => [ Event (CallModelTo DEVICE) None;
                          Event CallModelHalf None ]
              | Some _ => []
              end)
          ++ [ Event CallModelEval None ].
Proof.
  intros Hrun qconfig. unfold initialize_model_and_tokenizer in Hrun.
  apply bind_returns in Hrun as (attn' & w1 & checks & evs2 & Hchecks & Hrun & ->).
  exists checks,
    {| trust_remote_code := true; attn_implementation := "eager";
       low_cpu_mem_usage := true; quantization_config := qconfig |}.
  split; [|split; [|split; [|split]]]; [|reflexivity|reflexivity|reflexivity|].
  - match type of Hchecks with
    | ?m w = _ =>
        assert (emits (fun c => c = CallFlashAvailable \/ c = CallFlashGe210) m)
          as Hemits by emits_calls
    end.
    specialize (Hemits w). by rewrite Hchecks in Hemits.
  - f_equal. cbv zeta in Hrun. subst qconfig. simpl.
    repeat case_decide; cbv beta iota in Hrun; run_inv; reflexivity.
Qed.


End Loading.

(** * Properties of the transliteration endpoint *)

Section Endpoint_properties.

Import Transliteration.

Context {W Engine : Type} {xlit : XlitLibrary (W:=W) (Engine:=Engine)}.

Lemma translit_loop_returns engine lg todo result (w : W) out w' :
  translit_loop engine lg todo result w = (Return out, w') ->
  map original out = map original result ++ todo.
Proof.
  revert result w. induction todo as [|sentence todo IH]; intros result w; simpl.
  - intros [= <- <-]. by rewrite app_nil_r.
  - destruct (translit_sentence engine sentence w) as [[by_lang|e] w1];
      [|discriminate].
    destruct (by_lang !! lg) as [translit|]; [|discriminate].
    intros Hrest%IH. rewrite Hrest, map_app. simpl.
    by rewrite <- app_assoc.
Qed.


(** The three checks of lines 35-43. *)
Lemma transliterate_text_checked (req : TransliterationRequest) (w : W) :
  well_formed req ->
  transliterate_text req w =
    match XlitEngine (lang req) (beam_width req) w with
    | (Ok engine, w1) => translit_loop engine (lang req) (sentences req) [] w1
    | (Err e, w1) =>
        (HTTPException 500
           ("Failed to initialize transliteration engine: " +:+ exn_str e), w1)
    end.
Proof.
  intros (Hsent & Hlang & Hbeam). unfold transliterate_text.
  case_decide; [done|]. rewrite bool_decide_eq_true_2 by done. simpl.
  destruct (Z.ltb_spec (beam_width req) 1); [lia|].
  destruct (Z.ltb_spec 20 (beam_width req)); [lia|]. done.
Qed.

Lemma transliterate_text_unchecked (req : TransliterationRequest) (w : W) :
  ~ well_formed req ->
  exists detail, transliterate_text req w = (HTTPException 400 detail, w).
Proof.
  intros Hbad. unfold transliterate_text.
  case_decide as Hsent; [by eexists|].
  case_bool_decide as Hlang; simpl; [|by eexists].
  destruct (Z.ltb_spec (beam_width req) 1); simpl; [by eexists|].
  destruct (Z.ltb_spec 20 (beam_width req)); simpl; [by eexists|].
  destruct Hbad. repeat split; (done || lia).
Qed.

Lemma well_formed_dec (req : TransliterationRequest) :
  well_formed req \/ ~ well_formed req.
Proof.
  unfold well_formed.
  destruct (decide (sentences req = [])); [right; tauto|].
  destruct (decide (lang req ∈ SUPPORTED_LANGS)); [|right; tauto].
  destruct (decide (1 <= beam_width req <= 20)); [left|right]; tauto.
Qed.

(** X14.  A request with no sentence, an unsupported language or a beam
    width outside 1..20 is rejected with status 400 and the world is left
    as it was, whatever the engine library does: no engine is built and
    nothing is transliterated. *)
Theorem transliterate_rejects_malformed (req : TransliterationRequest) (w : W) :
  sentences req = [] \/ lang req ∉ SUPPORTED_LANGS \/
  beam_width req < 1 \/ 20 < beam_width req ->
  exists detail, transliterate_text req w = (HTTPException 400 detail, w).
Proof.
  intros Hbad. apply transliterate_text_unchecked.
  intros (Hsent & Hlang & Hbeam).
  destruct Hbad as [?|[?|[?|?]]]; (done || lia).
Qed.

(** X15.  The response of a call that returns lists the sentences of the
    request as its originals, one entry per sentence, in the order of the
    request. *)
Theorem transliterate_response_originals (req : TransliterationRequest) (w : W)
    (out : list TransliterationResponse) (w' : W) :
  transliterate_text req w = (Return out, w') ->
  map original out = sentences req.
Proof.
  intros Hrun.
  destruct (well_formed_dec req) as [Hok|Hbad].
  - rewrite transliterate_text_checked in Hrun by done.
    destruct (XlitEngine (lang req) (beam_width req) w) as [[engine|e] w1];
      [|discriminate].
    by apply translit_loop_returns in Hrun.
  - destruct (transliterate_text_unchecked req w Hbad) as [detail Hrej].
    rewrite Hrej in Hrun. discriminate.
Qed.


(** X17.  For a well-formed request, when the engine can be built and
    transliterates each sentence [s] into [f s] under the requested
    language, the endpoint returns, for each sentence in order, the pair of
    the sentence and its transliteration. *)
Theorem transliterate_returns (req : TransliterationRequest) (w w1 : W)
    (engine : Engine) (f : text -> text) :
  well_formed req ->
  XlitEngine (lang req) (beam_width req) w = (Ok engine, w1) ->
  (forall sentence w2, exists by_lang w3,
      translit_sentence engine sentence w2 = (Ok by_lang, w3) /\
      by_lang !! lang req = Some (f sentence)) ->
  (transliterate_text req w).1
    = Return (map (fun s => {| original := s; transliterated := f s |})
                  (sentences req)).
Proof.
  intros Hok Hengine Hsentence.
  rewrite transliterate_text_checked, Hengine by done.
  change (map _ (sentences req))
    with ([] ++ map (fun s => {| original := s; transliterated := f s |})
                    (sentences req)).
  clear Hengine. generalize (@nil TransliterationResponse) as result.
  revert w1.
  induction (sentences req) as [|sentence todo IH]; intros w1 result; simpl.
  - by rewrite app_nil_r.
  - destruct (Hsentence sentence w1) as (by_lang & w3 & -> & ->).
    by rewrite IH, <- app_assoc.
Qed.

End Endpoint_properties.

(** * Concrete runs of the further properties *)

(** X1: the paragraph with a soft hyphen, split by the test doubles. *)
Lemma split_sentences_eng_filters_witness :
  exists first_nltk w1 sents_moses w2 sents_nltk,
    sent_tokenize (Externals:=Stub.plain) Stub.paragraph 0%nat
      = (Ok first_nltk, w1) /\
    MosesSentenceSplitter (Externals:=Stub.plain) "en" [Stub.paragraph] w1
      = (Ok sents_moses, w2) /\
    sent_tokenize (Externals:=Stub.plain) Stub.paragraph w2
      = (Ok sents_nltk, 0%nat) /\
    [Stub.str "One. Two."; Stub.str "Three. Four."; Stub.str "Five."]
      = map (filter (fun c => c <> SOFT_HYPHEN))
            (if len sents_nltk <? len sents_moses
             then sents_nltk else sents_moses).
Proof.
  eapply (split_sentences_eng_filters (libs:=Stub.plain)). reflexivity.
Defined.

(** X2: Hindi text goes to the Indic splitter with code ["hi"]. *)
Lemma split_sentences_indic_delegates_witness :
  split_sentences (libs:=Stub.plain) Stub.hindi "hin_Deva" 0%nat
    = (Ok [Stub.hindi], 0%nat,
       [Event (CallSentenceSplit Stub.hindi "hi") None]).
Proof.
  exact (split_sentences_indic_delegates (libs:=Stub.plain)
           Stub.hindi "hin_Deva" "hi" 0%nat ltac:(discriminate) eq_refl).
Defined.

(** X3: the English paragraph, translated by the upper-casing model. *)
Lemma translate_paragraph_joins_witness :
  (translate_paragraph (libs:=Stub.plain) 1 Stub.paragraph
     "eng_Latn" "hin_Deva" (Stub.model Stub.upper) Stub.tokenizer
     (Stub.processor id id) 0%nat).1.1
  = Ok (join_space
          (map (translation id Stub.upper id)
               [Stub.str "One. Two."; Stub.str "Three. Four.";
                Stub.str "Five."])).
Proof.
  eapply (translate_paragraph_joins (libs:=Stub.plain));
    [lia|apply stub_per_sentence|reflexivity].
Defined.

(** X4: the Indic splitter raises. *)
Lemma translate_paragraph_split_failure_witness :
  translate_paragraph (libs:=Stub.unsplittable) BATCH_SIZE Stub.hindi
      "hin_Deva" "eng_Latn" (Stub.model id) Stub.tokenizer
      (Stub.processor id id) 0%nat
    = (Err (Exn "TypeError" "expected string"), 0%nat,
       [Event (CallSentenceSplit Stub.hindi "hi")
              (Some (Exn "TypeError" "expected string"))]) /\
  generate_calls
    [Event (CallSentenceSplit Stub.hindi "hi")
           (Some (Exn "TypeError" "expected string"))] = 0%nat /\
  preprocessed
    [Event (CallSentenceSplit Stub.hindi "hi")
           (Some (Exn "TypeError" "expected string"))] = [].
Proof.
  apply (translate_paragraph_split_failure (libs:=Stub.unsplittable)).
  reflexivity.
Defined.

(** X5: the model raises on the only sentence of a Hindi paragraph. *)
Lemma translate_paragraph_exception_propagates_witness :
  (translate_paragraph (libs:=Stub.plain) BATCH_SIZE Stub.hindi
     "hin_Deva" "eng_Latn" (Stub.failing_model 0) Stub.tokenizer
     (Stub.processor id id) 0%nat).1.1
    = Err (Exn "RuntimeError" "CUDA out of memory") /\
  last (translate_paragraph (libs:=Stub.plain) BATCH_SIZE Stub.hindi
          "hin_Deva" "eng_Latn" (Stub.failing_model 0) Stub.tokenizer
          (Stub.processor id id) 0%nat).2
    = Some (Event (CallGenerate GENERATE_KWARGS)
                  (Some (Exn "RuntimeError" "CUDA out of memory"))).
Proof.
  apply translate_paragraph_exception_propagates.
  apply list_elem_of_lookup. exists 3%nat. reflexivity.
Defined.

(** X6: English splitters that find no sentence. *)
Lemma translate_paragraph_no_sentence_witness :
  translate_paragraph (libs:=Stub.silent) BATCH_SIZE Stub.paragraph
      "eng_Latn" "hin_Deva" (Stub.model id) Stub.tokenizer
      (Stub.processor id id) 0%nat
    = (Ok [], 0%nat,
       [Event (CallSentTokenize Stub.paragraph) None;
        Event (CallMoses "en" [Stub.paragraph]) None;
        Event (CallSentTokenize Stub.paragraph) None]).
Proof.
  apply (translate_paragraph_no_sentence (libs:=Stub.silent));
    [discriminate|reflexivity].
Defined.

(** X7: a run cut short by the model on its second batch. *)
Lemma batch_translate_in_order_witness :
  preprocessed
    (batch_translate (libs:=Stub.plain) 1 Stub.abc "eng_Latn" "hin_Deva"
       (Stub.failing_model 1) Stub.tokenizer (Stub.processor id id) 0%nat).2
    `prefix_of` batches 1 Stub.abc /\
  (generate_calls
     (batch_translate (libs:=Stub.plain) 1 Stub.abc "eng_Latn" "hin_Deva"
        (Stub.failing_model 1) Stub.tokenizer (Stub.processor id id) 0%nat).2
   <= length (preprocessed
        (batch_translate (libs:=Stub.plain) 1 Stub.abc "eng_Latn" "hin_Deva"
           (Stub.failing_model 1) Stub.tokenizer (Stub.processor id id)
           0%nat).2))%nat.
Proof. apply batch_translate_in_order. lia. Defined.

(** X8: two sentences, batch size 1: twice the six calls. *)
Lemma batch_translate_call_sequence_witness :
  clean
    (batch_translate (libs:=Stub.plain) 1 Stub.hello "eng_Latn" "hin_Deva"
       (Stub.model Stub.upper) Stub.tokenizer (Stub.processor id id) 0%nat).2 /\
  callees
    (batch_translate (libs:=Stub.plain) 1 Stub.hello "eng_Latn" "hin_Deva"
       (Stub.model Stub.upper) Stub.tokenizer (Stub.processor id id) 0%nat).2
  = concat (replicate (length (batches 1 Stub.hello))
              [ "ip.preprocess_batch"; "tokenizer"; "model.generate";
                "tokenizer.batch_decode"; "ip.postprocess_batch";
                "torch.cuda.empty_cache" ]%string).
Proof.
  eapply (batch_translate_call_sequence (libs:=Stub.plain) 1 Stub.hello
            "eng_Latn" "hin_Deva" (Stub.model Stub.upper) Stub.tokenizer
            (Stub.processor id id) 0%nat).
  reflexivity.
Defined.

(** X9: two sentences at the module's batch size of 4. *)
Lemma batch_translate_single_batch_witness :
  batches BATCH_SIZE Stub.hello = [Stub.hello] /\
  preprocessed
    (batch_translate (libs:=Stub.plain) BATCH_SIZE Stub.hello
       "eng_Latn" "hin_Deva" (Stub.model Stub.upper) Stub.tokenizer
       (Stub.processor id id) 0%nat).2 = [Stub.hello] /\
  generate_calls
    (batch_translate (libs:=Stub.plain) BATCH_SIZE Stub.hello
       "eng_Latn" "hin_Deva" (Stub.model Stub.upper) Stub.tokenizer
       (Stub.processor id id) 0%nat).2 = 1%nat.
Proof.
  eapply (batch_translate_single_batch (libs:=Stub.plain) BATCH_SIZE
            Stub.hello "eng_Latn" "hin_Deva" (Stub.model Stub.upper)
            Stub.tokenizer (Stub.processor id id) 0%nat);
    [discriminate|by vm_compute|reflexivity].
Defined.

(** X10: three sentences, one by one. *)
Lemma batch_translate_one_by_one_witness :
  preprocessed
    (batch_translate (libs:=Stub.plain) 1 Stub.abc "eng_Latn" "hin_Deva"
       (Stub.model Stub.upper) Stub.tokenizer (Stub.processor id id) 0%nat).2
    = map (fun s => [s]) Stub.abc /\
  generate_calls
    (batch_translate (libs:=Stub.plain) 1 Stub.abc "eng_Latn" "hin_Deva"
       (Stub.model Stub.upper) Stub.tokenizer (Stub.processor id id) 0%nat).2
    = length Stub.abc.
Proof.
  eapply (batch_translate_one_by_one (libs:=Stub.plain) Stub.abc
            "eng_Latn" "hin_Deva" (Stub.model Stub.upper) Stub.tokenizer
            (Stub.processor id id) 0%nat).
  reflexivity.
Defined.

(** X11: a 4-bit load. *)
Lemma quantized_model_not_moved_witness :
  Forall (fun ev => ev_call ev <> CallModelHalf /\
                    forall device, ev_call ev <> CallModelTo device)
         (initialize_model_and_tokenizer (libs:=Stub.plain)
            en_indic_ckpt_dir "4-bit" "eager" 0%nat).2.
Proof. apply quantized_model_not_moved. by left. Defined.

(** X12: flash attention requested, both checks made. *)
Lemma flash_checks_on_request_witness :
  "flash_attention_2"%string = "flash_attention_2"%string /\
  (CallFlashGe210 = CallFlashGe210 ->
   exists w1,
     is_flash_attn_2_available (Externals:=Stub.plain) 0%nat = (Ok true, w1)).
Proof.
  apply (flash_checks_on_request (libs:=Stub.plain)
           en_indic_ckpt_dir "" "flash_attention_2" 0%nat
           CallFlashGe210 None); [by right|].
  apply list_elem_of_lookup. exists 1%nat. reflexivity.
Defined.

(** X13: an unquantised load with the default attention. *)
Lemma initialize_call_sequence_witness :
  exists checks kw,
    Forall (fun ev => ev_call ev = CallFlashAvailable \/
                      ev_call ev = CallFlashGe210) checks /\
    trust_remote_code kw = true /\ low_cpu_mem_usage kw = true /\
    quantization_config kw = None /\
    (initialize_model_and_tokenizer (libs:=Stub.plain)
       en_indic_ckpt_dir "" "eager" 0%nat).2
    = checks
      ++ [ Event (CallTokenizerFromPretrained en_indic_ckpt_dir) None;
           Event (CallModelFromPretrained en_indic_ckpt_dir kw) None ]
      ++ [ Event (CallModelTo "cpu") None; Event CallModelHalf None ]
      ++ [ Event CallModelEval None ].
Proof.
  eapply (initialize_call_sequence (libs:=Stub.plain)
            en_indic_ckpt_dir "" "eager" 0%nat).
  reflexivity.
Defined.

(** X14: a beam width of 0. *)
Lemma transliterate_rejects_malformed_witness :
  exists detail,
    Transliteration.transliterate_text (xlit:=Transliteration.stub)
      {| Transliteration.sentences := Stub.hello;
         Transliteration.lang := "hi";
         Transliteration.beam_width := 0 |} 0%nat
    = (Transliteration.HTTPException 400 detail, 0%nat).
Proof.
  apply (transliterate_rejects_malformed (xlit:=Transliteration.stub)).
  right. right. left. simpl. lia.
Defined.

(** X15: the two sentences come back as originals. *)
Lemma transliterate_response_originals_witness :
  exists out w',
    Transliteration.transliterate_text (xlit:=Transliteration.stub)
      Transliteration.request 0%nat = (Transliteration.Return out, w') /\
    map Transliteration.original out
      = Transliteration.sentences Transliteration.request.
Proof.
  do 2 eexists. split; [reflexivity|].
  eapply (transliterate_response_originals (xlit:=Transliteration.stub)
            Transliteration.request 0%nat).
  reflexivity.
Defined.


(** X17: the request of two sentences in Hindi. *)
Lemma transliterate_returns_witness :
  (Transliteration.transliterate_text (xlit:=Transliteration.stub)
     Transliteration.request 0%nat).1
  = Transliteration.Return
      (map (fun s => {| Transliteration.original := s;
                        Transliteration.transliterated := Stub.upper s |})
           (Transliteration.sentences Transliteration.request)).
Proof.
  eapply (transliterate_returns (xlit:=Transliteration.stub)
            Transliteration.request 0%nat 1%nat "hi"%string Stub.upper).
  - split; [discriminate|]. split; [|simpl; lia].
    apply list_elem_of_lookup. exists 1%nat. reflexivity.
  - reflexivity.
  - intros sentence w2. do 2 eexists. split; [reflexivity|].
    apply lookup_singleton_eq.
Defined.
